(** * Snake Classic (mas-games): the game loop of [src/app/page.tsx] and the
    AI route handler, embedded as state transformers.

    The React component keeps its state in hooks; here the hooks are the
    fields of one record and every handler is a function on that record.
    [Math.random] is an explicit source of draws that [generateFood]
    consumes; each draw is a rational of the half-open unit interval. *)

From Stdlib Require Import ZArith QArith Qround List String Bool Lia.
Import ListNotations.

#[local] Open Scope string_scope.
#[local] Open Scope list_scope.
#[local] Open Scope Z_scope.

Module Game.

(** ** Game constants *)

Definition GRID_SIZE : Z := 20.
Definition INITIAL_SPEED : Z := 150.
Definition SPEED_INCREMENT : Z := 5.
Definition MIN_SPEED : Z := 50.

(** ** Types *)

Inductive ThemeKey := neon | ocean | sunset | arctic.
Inductive Direction := UP | DOWN | LEFT | RIGHT.
Inductive GameState := menu | playing | paused | gameover.

Record Position := { x : Z; y : Z }.

(** The body of a request sent to [/api/ai-snake]. *)
Record FeedbackData := { fd_score : Z; fd_highScore : Z; fd_length : Z }.
Record AiRequest := { req_type : string; req_data : option FeedbackData }.

(** [localStorage]: the three keys the component uses.  A numeric key holds
    the integer that [parseInt] reads back from the stored string; the
    component only ever stores [n.toString()], so [None] is an absent key
    (the falsy result of [getItem]). *)
Record Storage := {
  snake_theme : option ThemeKey;
  snake_speed : option Z;
  snake_highScore : option Z
}.

(** The hooks of [SnakeGame].  [requests] lists the bodies already handed
    to [fetch], oldest first. *)
Record State := {
  gameState : GameState;
  snake : list Position;
  food : Position;
  direction : Direction;
  nextDirection : Direction;
  score : Z;
  highScore : Z;
  speed : Z;
  theme : ThemeKey;
  aiTip : string;
  aiFeedback : string;
  isLoadingAi : bool;
  touchStartRef : option (Z * Z);
  scoreRef : Z;
  localStorage : Storage;
  requests : list AiRequest
}.

(** ** Setters (the [setX] functions of the hooks) *)

Definition setGameState (v : GameState) (st : State) : State :=
  {| gameState := v; snake := snake st; food := food st;
     direction := direction st; nextDirection := nextDirection st;
     score := score st; highScore := highScore st; speed := speed st;
     theme := theme st; aiTip := aiTip st; aiFeedback := aiFeedback st;
     isLoadingAi := isLoadingAi st; touchStartRef := touchStartRef st;
     scoreRef := scoreRef st; localStorage := localStorage st;
     requests := requests st |}.

Definition setSnake (v : list Position) (st : State) : State :=
  {| gameState := gameState st; snake := v; food := food st;
     direction := direction st; nextDirection := nextDirection st;
     score := score st; highScore := highScore st; speed := speed st;
     theme := theme st; aiTip := aiTip st; aiFeedback := aiFeedback st;
     isLoadingAi := isLoadingAi st; touchStartRef := touchStartRef st;
     scoreRef := scoreRef st; localStorage := localStorage st;
     requests := requests st |}.

Definition setFood (v : Position) (st : State) : State :=
  {| gameState := gameState st; snake := snake st; food := v;
     direction := direction st; nextDirection := nextDirection st;
     score := score st; highScore := highScore st; speed := speed st;
     theme := theme st; aiTip := aiTip st; aiFeedback := aiFeedback st;
     isLoadingAi := isLoadingAi st; touchStartRef := touchStartRef st;
     scoreRef := scoreRef st; localStorage := localStorage st;
     requests := requests st |}.

Definition setDirection (v : Direction) (st : State) : State :=
  {| gameState := gameState st; snake := snake st; food := food st;
     direction := v; nextDirection := nextDirection st;
     score := score st; highScore := highScore st; speed := speed st;
     theme := theme st; aiTip := aiTip st; aiFeedback := aiFeedback st;
     isLoadingAi := isLoadingAi st; touchStartRef := touchStartRef st;
     scoreRef := scoreRef st; localStorage := localStorage st;
     requests := requests st |}.

Definition setNextDirection (v : Direction) (st : State) : State :=
  {| gameState := gameState st; snake := snake st; food := food st;
     direction := direction st; nextDirection := v;
     score := score st; highScore := highScore st; speed := speed st;
     theme := theme st; aiTip := aiTip st; aiFeedback := aiFeedback st;
     isLoadingAi := isLoadingAi st; touchStartRef := touchStartRef st;
     scoreRef := scoreRef st; localStorage := localStorage st;
     requests := requests st |}.

Definition setScore (v : Z) (st : State) : State :=
  {| gameState := gameState st; snake := snake st; food := food st;
     direction := direction st; nextDirection := nextDirection st;
     score := v; highScore := highScore st; speed := speed st;
     theme := theme st; aiTip := aiTip st; aiFeedback := aiFeedback st;
     isLoadingAi := isLoadingAi st; touchStartRef := touchStartRef st;
     scoreRef := scoreRef st; localStorage := localStorage st;
     requests := requests st |}.

Definition setHighScore (v : Z) (st : State) : State :=
  {| gameState := gameState st; snake := snake st; food := food st;
     direction := direction st; nextDirection := nextDirection st;
     score := score st; highScore := v; speed := speed st;
     theme := theme st; aiTip := aiTip st; aiFeedback := aiFeedback st;
     isLoadingAi := isLoadingAi st; touchStartRef := touchStartRef st;
     scoreRef := scoreRef st; localStorage := localStorage st;
     requests := requests st |}.

Definition setSpeed (v : Z) (st : State) : State :=
  {| gameState := gameState st; snake := snake st; food := food st;
     direction := direction st; nextDirection := nextDirection st;
     score := score st; highScore := highScore st; speed := v;
     theme := theme st; aiTip := aiTip st; aiFeedback := aiFeedback st;
     isLoadingAi := isLoadingAi st; touchStartRef := touchStartRef st;
     scoreRef := scoreRef st; localStorage := localStorage st;
     requests := requests st |}.

Definition setTheme (v : ThemeKey) (st : State) : State :=
  {| gameState := gameState st; snake := snake st; food := food st;
     direction := direction st; nextDirection := nextDirection st;
     score := score st; highScore := highScore st; speed := speed st;
     theme := v; aiTip := aiTip st; aiFeedback := aiFeedback st;
     isLoadingAi := isLoadingAi st; touchStartRef := touchStartRef st;
     scoreRef := scoreRef st; localStorage := localStorage st;
     requests := requests st |}.

Definition setAiTip (v : string) (st : State) : State :=
  {| gameState := gameState st; snake := snake st; food := food st;
     direction := direction st; nextDirection := nextDirection st;
     score := score st; highScore := highScore st; speed := speed st;
     theme := theme st; aiTip := v; aiFeedback := aiFeedback st;
     isLoadingAi := isLoadingAi st; touchStartRef := touchStartRef st;
     scoreRef := scoreRef st; localStorage := localStorage st;
     requests := requests st |}.

Definition setAiFeedback (v : string) (st : State) : State :=
  {| gameState := gameState st; snake := snake st; food := food st;
     direction := direction st; nextDirection := nextDirection st;
     score := score st; highScore := highScore st; speed := speed st;
     theme := theme st; aiTip := aiTip st; aiFeedback := v;
     isLoadingAi := isLoadingAi st; touchStartRef := touchStartRef st;
     scoreRef := scoreRef st; localStorage := localStorage st;
     requests := requests st |}.

Definition setIsLoadingAi (v : bool) (st : State) : State :=
  {| gameState := gameState st; snake := snake st; food := food st;
     direction := direction st; nextDirection := nextDirection st;
     score := score st; highScore := highScore st; speed := speed st;
     theme := theme st; aiTip := aiTip st; aiFeedback := aiFeedback st;
     isLoadingAi := v; touchStartRef := touchStartRef st;
     scoreRef := scoreRef st; localStorage := localStorage st;
     requests := requests st |}.

Definition setTouchStartRef (v : option (Z * Z)) (st : State) : State :=
  {| gameState := gameState st; snake := snake st; food := food st;
     direction := direction st; nextDirection := nextDirection st;
     score := score st; highScore := highScore st; speed := speed st;
     theme := theme st; aiTip := aiTip st; aiFeedback := aiFeedback st;
     isLoadingAi := isLoadingAi st; touchStartRef := v;
     scoreRef := scoreRef st; localStorage := localStorage st;
     requests := requests st |}.

Definition setScoreRef (v : Z) (st : State) : State :=
  {| gameState := gameState st; snake := snake st; food := food st;
     direction := direction st; nextDirection := nextDirection st;
     score := score st; highScore := highScore st; speed := speed st;
     theme := theme st; aiTip := aiTip st; aiFeedback := aiFeedback st;
     isLoadingAi := isLoadingAi st; touchStartRef := touchStartRef st;
     scoreRef := v; localStorage := localStorage st;
     requests := requests st |}.

Definition setLocalStorage (v : Storage) (st : State) : State :=
  {| gameState := gameState st; snake := snake st; food := food st;
     direction := direction st; nextDirection := nextDirection st;
     score := score st; highScore := highScore st; speed := speed st;
     theme := theme st; aiTip := aiTip st; aiFeedback := aiFeedback st;
     isLoadingAi := isLoadingAi st; touchStartRef := touchStartRef st;
     scoreRef := scoreRef st; localStorage := v;
     requests := requests st |}.

(** [fetch('/api/ai-snake', { body })]: the body joins the sent requests. *)
Definition fetch (r : AiRequest) (st : State) : State :=
  {| gameState := gameState st; snake := snake st; food := food st;
     direction := direction st; nextDirection := nextDirection st;
     score := score st; highScore := highScore st; speed := speed st;
     theme := theme st; aiTip := aiTip st; aiFeedback := aiFeedback st;
     isLoadingAi := isLoadingAi st; touchStartRef := touchStartRef st;
     scoreRef := scoreRef st; localStorage := localStorage st;
     requests := requests st ++ [r] |}.

(** [localStorage.setItem] for the two numeric keys and the theme. *)
Definition setItem_theme (v : ThemeKey) (s : Storage) : Storage :=
  {| snake_theme := Some v; snake_speed := snake_speed s;
     snake_highScore := snake_highScore s |}.
Definition setItem_speed (v : Z) (s : Storage) : Storage :=
  {| snake_theme := snake_theme s; snake_speed := Some v;
     snake_highScore := snake_highScore s |}.
Definition setItem_highScore (v : Z) (s : Storage) : Storage :=
  {| snake_theme := snake_theme s; snake_speed := snake_speed s;
     snake_highScore := Some v |}.

(** ** Helpers standing for JavaScript built-ins *)

(** [segment.x === p.x && segment.y === p.y] *)
Definition samePosition (segment p : Position) : bool :=
  (x segment =? x p) && (y segment =? y p).

(** [currentSnake.some(segment => segment.x === p.x && segment.y === p.y)] *)
Definition onSnake (p : Position) (currentSnake : list Position) : bool :=
  existsb (fun segment => samePosition segment p) currentSnake.

(** [Math.floor(Math.random() * GRID_SIZE)] for the draw [r].  A double is
    a rational; the product is taken exactly, the rounding of the double
    product is left out. *)
Definition randomCoordinate (r : Q) : Z :=
  Qfloor (r * inject_Z GRID_SIZE).

(** The contract of [Math.random]: a draw lies in [0, 1). *)
Definition unitDraw (r : Q) : Prop := (0 <= r)%Q /\ (r < 1)%Q.

(** [a || b] on strings: the empty string is falsy. *)
Definition orElse (a b : string) : string :=
  match a with EmptyString => b | _ => a end.

(** ** Food placement *)

(** The do-while loop of [generateFood].  Every round takes two draws; the
    loop goes on while the drawn cell lies on the snake.  [None]: the draws
    given ran out with the loop still going. *)
Fixpoint generateFood (rng : list Q) (currentSnake : list Position)
  : option (Position * list Q) :=
  match rng with
  | rx :: ry :: rng' =>
      let newFood := {| x := randomCoordinate rx; y := randomCoordinate ry |} in
      if onSnake newFood currentSnake
      then generateFood rng' currentSnake
      else Some (newFood, rng')
  | _ => None
  end.

(** ** Game over *)

(** [triggerGameOver(snakeLength, finalScore)].  The [highScore] sent in the
    feedback request is the one the callback closed over, that of the state
    the callback was created in. *)
Definition triggerGameOver (snakeLength finalScore : Z) (st : State) : State :=
  let closedHighScore := highScore st in
  let st := setGameState gameover st in
  let st :=
    let prev := highScore st in
    if finalScore >? prev
    then setHighScore finalScore
           (setLocalStorage (setItem_highScore finalScore (localStorage st)) st)
    else st in
  let st := setIsLoadingAi true st in
  fetch {| req_type := "feedback";
           req_data := Some {| fd_score := finalScore;
                               fd_highScore := closedHighScore;
                               fd_length := snakeLength |} |} st.

(** ** Start *)

Definition startGame (st : State) (rng : list Q) : option (State * list Q) :=
  let initialSnake := [{| x := 10; y := 10 |}] in
  let st := setSnake initialSnake st in
  match generateFood rng initialSnake with
  | None => None
  | Some (newFood, rng) =>
      let st := setFood newFood st in
      let st := setDirection RIGHT st in
      let st := setNextDirection RIGHT st in
      let st := setScore 0 st in
      let savedSpeed := snake_speed (localStorage st) in
      let st := setSpeed (match savedSpeed with
                          | Some v => v
                          | None => INITIAL_SPEED
                          end) st in
      let st := setAiTip "" st in
      let st := setAiFeedback "" st in
      let st := setGameState playing st in
      Some (st, rng)
  end.

(** ** The game loop *)

(** The head after the [switch (currentDirection)]. *)
Definition moveHead (currentDirection : Direction) (head : Position) : Position :=
  match currentDirection with
  | UP => {| x := x head; y := y head - 1 |}
  | DOWN => {| x := x head; y := y head + 1 |}
  | LEFT => {| x := x head - 1; y := y head |}
  | RIGHT => {| x := x head + 1; y := y head |}
  end.

(** [head.x < 0 || head.x >= GRID_SIZE || head.y < 0 || head.y >= GRID_SIZE] *)
Definition hitsWall (head : Position) : bool :=
  (x head <? 0) || (x head >=? GRID_SIZE) || (y head <? 0) || (y head >=? GRID_SIZE).

(** [newSnake.pop()] *)
Definition pop (newSnake : list Position) : list Position := removelast newSnake.

(** The callback of [setInterval]: one tick.  The snake state is an array
    that is never empty (it starts with one segment and every tick returns
    either the array it got or one at least as long).  On an empty array
    JavaScript would read [undefined] coordinates, compare [NaN] with
    everything as false, push and pop the head and so return the empty array
    again; the first case below says the same without a [NaN]. *)
Definition tick (st : State) (rng : list Q) : option (State * list Q) :=
  let currentSnake := snake st in
  let currentDirection := nextDirection st in
  let st := setDirection currentDirection st in
  match currentSnake with
  | [] => Some (st, rng)
  | segment0 :: _ =>
      let head := moveHead currentDirection segment0 in
      if hitsWall head then
        Some (triggerGameOver (Z.of_nat (List.length currentSnake)) (scoreRef st) st, rng)
      else if onSnake head currentSnake then
        Some (triggerGameOver (Z.of_nat (List.length currentSnake)) (scoreRef st) st, rng)
      else
        let newSnake := head :: currentSnake in
        if (x head =? x (food st)) && (y head =? y (food st)) then
          let st := setScore (score st + 10) st in
          match generateFood rng newSnake with
          | None => None
          | Some (newFood, rng) =>
              let st := setFood newFood st in
              let st := setSpeed (Z.max MIN_SPEED (speed st - SPEED_INCREMENT)) st in
              Some (setSnake newSnake st, rng)
          end
        else
          Some (setSnake (pop newSnake) st, rng)
  end.

(** The effect that owns the interval: it is armed only while playing. *)
Definition gameLoop (st : State) (rng : list Q) : option (State * list Q) :=
  match gameState st with
  | playing => tick st rng
  | _ => Some (st, rng)
  end.

(** The effects that run after a render: the score ref follows the score,
    theme and speed are saved. *)
Definition syncScoreRef (st : State) : State := setScoreRef (score st) st.

Definition savePreferences (st : State) : State :=
  setLocalStorage
    (setItem_speed (speed st) (setItem_theme (theme st) (localStorage st))) st.

Definition runEffects (st : State) : State := savePreferences (syncScoreRef st).

(** ** Input adapters *)

Definition direction_eqb (a b : Direction) : bool :=
  match a, b with
  | UP, UP | DOWN, DOWN | LEFT, LEFT | RIGHT, RIGHT => true
  | _, _ => false
  end.

(** One [case] group of the key switch. *)
Definition keyIs (key : string) (labels : list string) : bool :=
  existsb (String.eqb key) labels.

Definition handleKeyDown (key : string) (st : State) (rng : list Q)
  : option (State * list Q) :=
  match gameState st with
  | playing =>
      if keyIs key ["ArrowUp"; "w"; "W"] then
        Some (if negb (direction_eqb (direction st) DOWN)
              then setNextDirection UP st else st, rng)
      else if keyIs key ["ArrowDown"; "s"; "S"] then
        Some (if negb (direction_eqb (direction st) UP)
              then setNextDirection DOWN st else st, rng)
      else if keyIs key ["ArrowLeft"; "a"; "A"] then
        Some (if negb (direction_eqb (direction st) RIGHT)
              then setNextDirection LEFT st else st, rng)
      else if keyIs key ["ArrowRight"; "d"; "D"] then
        Some (if negb (direction_eqb (direction st) LEFT)
              then setNextDirection RIGHT st else st, rng)
      else if keyIs key ["Escape"; "p"; "P"] then
        Some (setGameState paused st, rng)
      else Some (st, rng)
  | paused =>
      if keyIs key ["Escape"; "p"; "P"]
      then Some (setGameState playing st, rng)
      else Some (st, rng)
  | menu | gameover =>
      if keyIs key ["Enter"; " "]
      then startGame st rng
      else Some (st, rng)
  end.

(** Touch positions are client coordinates in whole pixels. *)
Definition handleTouchStart (touch : Z * Z) (st : State) : State :=
  setTouchStartRef (Some touch) st.

Definition handleTouchEnd (touch : Z * Z) (st : State) : State :=
  match touchStartRef st with
  | None => st
  | Some start =>
      let deltaX := fst touch - fst start in
      let deltaY := snd touch - snd start in
      let minSwipe := 30 in
      let st :=
        if Z.abs deltaX >? Z.abs deltaY then
          if (deltaX >? minSwipe) && negb (direction_eqb (direction st) LEFT)
          then setNextDirection RIGHT st
          else if (deltaX <? - minSwipe) && negb (direction_eqb (direction st) RIGHT)
          then setNextDirection LEFT st
          else st
        else
          if (deltaY >? minSwipe) && negb (direction_eqb (direction st) UP)
          then setNextDirection DOWN st
          else if (deltaY <? - minSwipe) && negb (direction_eqb (direction st) DOWN)
          then setNextDirection UP st
          else st in
      setTouchStartRef None st
  end.

(** The [opposites] table of [handleDirectionButton]. *)
Definition opposites (d : Direction) : Direction :=
  match d with
  | UP => DOWN
  | DOWN => UP
  | LEFT => RIGHT
  | RIGHT => LEFT
  end.

Definition handleDirectionButton (newDirection : Direction) (st : State) : State :=
  match gameState st with
  | playing =>
      if negb (direction_eqb (direction st) (opposites newDirection))
      then setNextDirection newDirection st
      else st
  | _ => st
  end.

(** ** The AI tip button and the answers to the two requests *)

Record AiAnswer := { content : string; fallback : string }.

Definition fetchAiTip (st : State) : State :=
  fetch {| req_type := "tip"; req_data := None |} (setIsLoadingAi true st).

(** The answer to a tip request; [None] is a rejected promise. *)
Definition aiTipSettled (data : option AiAnswer) (st : State) : State :=
  setIsLoadingAi false
    (match data with
     | Some d =>
         setAiTip (orElse (content d)
                     (orElse (fallback d) "Keep practicing and you'll improve!")) st
     | None => setAiTip "Focus on the center and plan your moves ahead!" st
     end).

Definition aiFeedbackSettled (data : option AiAnswer) (st : State) : State :=
  setIsLoadingAi false
    (match data with
     | Some d =>
         setAiFeedback (orElse (content d) (orElse (fallback d) "Great effort!")) st
     | None => setAiFeedback "Nice try! Keep playing to beat your high score!" st
     end).

(** ** The initial state of the component *)

Definition initialState (stored : Storage) : State :=
  {| gameState := menu;
     snake := [{| x := 10; y := 10 |}];
     food := {| x := 15; y := 10 |};
     direction := RIGHT;
     nextDirection := RIGHT;
     score := 0;
     highScore := match snake_highScore stored with Some v => v | None => 0 end;
     speed := match snake_speed stored with Some v => v | None => INITIAL_SPEED end;
     theme := match snake_theme stored with Some t => t | None => neon end;
     aiTip := "";
     aiFeedback := "";
     isLoadingAi := false;
     touchStartRef := None;
     scoreRef := 0;
     localStorage := stored;
     requests := [] |}.

(** ** The events of the page and their dispatch *)

(** What can happen to the mounted component.  A button only fires in the
    game state that renders it; the range input of the settings panel only
    yields values of its own grid (from [MIN_SPEED] to 250 in steps of 10). *)
Inductive Event :=
| Tick
| KeyDown (key : string)
| TouchStart (touch : Z * Z)
| TouchEnd (touch : Z * Z)
| DirectionButton (d : Direction)
| PauseButton
| ResumeButton
| MenuButton
| PlayButton
| ThemeButton (t : ThemeKey)
| SpeedSlider (v : Z)
| AiTipButton
| AiTipAnswer (a : option AiAnswer)
| AiFeedbackAnswer (a : option AiAnswer).

Definition sliderValue (v : Z) : bool :=
  (MIN_SPEED <=? v) && (v <=? 250) && ((v - MIN_SPEED) mod 10 =? 0).

Definition dispatch (ev : Event) (st : State) (rng : list Q)
  : option (State * list Q) :=
  match ev, gameState st with
  | Tick, _ => gameLoop st rng
  | KeyDown key, _ => handleKeyDown key st rng
  | TouchStart touch, _ => Some (handleTouchStart touch st, rng)
  | TouchEnd touch, _ => Some (handleTouchEnd touch st, rng)
  | DirectionButton d, playing => Some (handleDirectionButton d st, rng)
  | PauseButton, playing => Some (setGameState paused st, rng)
  | ResumeButton, paused => Some (setGameState playing st, rng)
  | MenuButton, (paused | gameover) => Some (setGameState menu st, rng)
  | PlayButton, (menu | gameover) => startGame st rng
  | ThemeButton t, menu => Some (setTheme t st, rng)
  | SpeedSlider v, menu =>
      Some (if sliderValue v then setSpeed v st else st, rng)
  | AiTipButton, menu =>
      Some (if isLoadingAi st then st else fetchAiTip st, rng)
  | AiTipAnswer a, _ => Some (aiTipSettled a st, rng)
  | AiFeedbackAnswer a, _ => Some (aiFeedbackSettled a st, rng)
  | _, _ => Some (st, rng)
  end.

(** One event, then the render and its effects. *)
Definition step (ev : Event) (st : State) (rng : list Q)
  : option (State * list Q) :=
  match dispatch ev st rng with
  | Some (st', rng') => Some (runEffects st', rng')
  | None => None
  end.

(** A browser that has never run the page. *)
Definition noStorage : Storage :=
  {| snake_theme := None; snake_speed := None; snake_highScore := None |}.

(** The page as it mounts on a local storage. *)
Definition mount (stored : Storage) : State := runEffects (initialState stored).

(** The states the page can be in: it first mounts in a browser that has
    never run it, it handles events, and it can be loaded again, on the
    local storage it has written itself. *)
Inductive Reachable : State -> Prop :=
| Reachable_mount : Reachable (mount noStorage)
| Reachable_reload st : Reachable st -> Reachable (mount (localStorage st))
| Reachable_step ev st rng st' rng' :
    Reachable st ->
    step ev st rng = Some (st', rng') ->
    Reachable st'.

(** A playing session runs from a start command to the game over; it is in
    the states [playing] and [paused].  [Session a b]: [b] follows [a] by
    events that all fire inside the session. *)
Definition inSession (st : State) : Prop :=
  gameState st = playing \/ gameState st = paused.

Inductive Session : State * list Q -> State * list Q -> Prop :=
| Session_refl a : Session a a
| Session_step ev st rng st1 rng1 b :
    inSession st ->
    step ev st rng = Some (st1, rng1) ->
    Session (st1, rng1) b ->
    Session (st, rng) b.

(** ** Vocabulary of the properties *)

(** A cell of the grid. *)
Definition inGrid (p : Position) : Prop :=
  0 <= x p < GRID_SIZE /\ 0 <= y p < GRID_SIZE.

Definition Position_eq_dec (p q : Position) : {p = q} + {p <> q}.
Proof.
  destruct p as [px py], q as [qx qy].
  destruct (Z.eq_dec px qx) as [Hx | Hx];
    [destruct (Z.eq_dec py qy) as [Hy | Hy] |].
  - left; congruence.
  - right; congruence.
  - right; congruence.
Defined.

(** The number of distinct cells a snake lies on. *)
Definition occupied (currentSnake : list Position) : nat :=
  List.length (nodup Position_eq_dec currentSnake).

(** All cells of the grid, column by column. *)
Definition gridCells : list Position :=
  let axis := map Z.of_nat (seq 0 (Z.to_nat GRID_SIZE)) in
  flat_map (fun i => map (fun j => {| x := i; y := j |}) axis) axis.

(** The cell that one round of [generateFood] draws. *)
Definition drawnCell (rx ry : Q) : Position :=
  {| x := randomCoordinate rx; y := randomCoordinate ry |}.

(** The draw that lands on a given coordinate. *)
Definition drawFor (c : Z) : Q := c # Z.to_pos GRID_SIZE.

(** Draws that [generateFood] rejects round after round. *)
Inductive Rejected (currentSnake : list Position) : list Q -> Prop :=
| Rejected_nil : Rejected currentSnake []
| Rejected_round rx ry rng :
    onSnake (drawnCell rx ry) currentSnake = true ->
    Rejected currentSnake rng ->
    Rejected currentSnake (rx :: ry :: rng).

(** The head a tick computes, when there is a segment to start from. *)
Definition newHead (st : State) : option Position :=
  match snake st with
  | [] => None
  | segment0 :: _ => Some (moveHead (nextDirection st) segment0)
  end.

(** The tick runs into a wall or into the snake. *)
Definition collided (st : State) : bool :=
  match newHead st with
  | Some head => hitsWall head || onSnake head (snake st)
  | None => false
  end.

(** The new head lies on the food. *)
Definition ateFood (st : State) : bool :=
  match newHead st with
  | Some head => samePosition head (food st)
  | None => false
  end.





(** [b] is the reverse of [a]. *)
Definition reverseOf (a b : Direction) : bool :=
  match a, b with
  | UP, DOWN | DOWN, UP | LEFT, RIGHT | RIGHT, LEFT => true
  | _, _ => false
  end.

(** A tick that ends the game: game over, with snake and score as they
    were before the tick. *)
Definition endsGame (st st' : State) : Prop :=
  gameState st' = gameover /\ snake st' = snake st /\ score st' = score st.

(** ** Scenarios *)

(** A session just started: snake [(10,10)], heading right, food at (15,10). *)
Definition scenarioStart : State :=
  setGameState playing (mount noStorage).

(** The same with the food right in front of the head. *)
Definition scenarioFood : State := setFood {| x := 11; y := 10 |} scenarioStart.

(** The head on the left edge, turning left. *)
Definition scenarioWall : State :=
  setNextDirection LEFT (setSnake [{| x := 0; y := 10 |}] scenarioStart).

(** A snake of four segments curled so that the cell right of the head is
    its tail. *)
Definition scenarioTail : State :=
  setDirection UP
    (setSnake [ {| x := 10; y := 10 |}; {| x := 10; y := 11 |};
                {| x := 11; y := 11 |}; {| x := 11; y := 10 |} ] scenarioStart).

(** The cell every session starts from. *)
Definition startCell : Position := {| x := 10; y := 10 |}.

(** The speed a session starts with: the saved one, or the initial speed. *)
Definition savedSpeed (st : State) : Z :=
  match snake_speed (localStorage st) with
  | Some v => v
  | None => INITIAL_SPEED
  end.

(** The draws of a first game: the food lands right of the start cell, and
    after it is eaten on (3,4). *)
Definition firstDraws : list Q := [drawFor 11; drawFor 10; drawFor 3; drawFor 4].

(** The first game of a browser, right after the Play button. *)
Definition firstGame : State :=
  Eval vm_compute in
    match step PlayButton (mount noStorage) firstDraws with
    | Some (st, _) => st
    | None => mount noStorage
    end.

(** The same game one tick later: the food is eaten. *)
Definition firstMeal : State :=
  Eval vm_compute in
    match step Tick firstGame [drawFor 3; drawFor 4] with
    | Some (st, _) => st
    | None => firstGame
    end.

(** A game over while the high score stands at 30. *)
Definition scenarioHighScore : State := setHighScore 30 scenarioWall.

(** ** Vocabulary of the invariants *)

(** Two cells that share a side. *)
Definition adjacent (a b : Position) : Prop :=
  Z.abs (x a - x b) + Z.abs (y a - y b) = 1.

(** Every segment shares a side with the next one. *)
Fixpoint connected (l : list Position) : Prop :=
  match l with
  | a :: (b :: _) as rest => adjacent a b /\ connected rest
  | _ => True
  end.

(** The second segment lies right behind the head, against the applied
    direction. *)
Definition neckBehind (st : State) : Prop :=
  match snake st with
  | head :: neck :: _ => neck = moveHead (opposites (direction st)) head
  | _ => True
  end.

(** The high score a local storage stands for. *)
Definition storedHighScore (s : Storage) : Z :=
  match snake_highScore s with
  | Some v => v
  | None => 0
  end.

(** A request as the page sends it: a bare tip request, or a feedback
    request with its data. *)
Definition clientRequest (r : AiRequest) : Prop :=
  (req_type r = "tip" /\ req_data r = None) \/
  (req_type r = "feedback" /\ req_data r <> None).

(** What holds of the game in every state of the page. *)
Record gameInv (st : State) : Prop := {
  inv_nonempty : snake st <> [];
  inv_inGrid : Forall inGrid (snake st);
  inv_NoDup : NoDup (snake st);
  inv_connected : connected (snake st);
  inv_food : ~ In (food st) (snake st);
  inv_score : score st = 10 * (Z.of_nat (List.length (snake st)) - 1);
  inv_turn : reverseOf (direction st) (nextDirection st) = false;
  inv_neck : inSession st -> neckBehind st;
  inv_highScore : highScore st = storedHighScore (localStorage st);
  inv_gameover : gameState st = gameover -> score st <= highScore st;
  inv_requests : Forall clientRequest (requests st)
}.

(** What the effects of a render establish. *)
Record synced (st : State) : Prop := {
  sync_scoreRef : scoreRef st = score st;
  sync_speed : snake_speed (localStorage st) = Some (speed st);
  sync_theme : snake_theme (localStorage st) = Some (theme st)
}.

(** A handler that leaves the game alone: it may buffer a turn that is no
    reversal, move between the states of the session or back to the menu,
    and send a tip request. *)
Record keepsGame (st st' : State) : Prop := {
  keeps_snake : snake st' = snake st;
  keeps_food : food st' = food st;
  keeps_score : score st' = score st;
  keeps_direction : direction st' = direction st;
  keeps_highScore : highScore st' = highScore st;
  keeps_stored : snake_highScore (localStorage st')
                 = snake_highScore (localStorage st);
  keeps_turn : nextDirection st' = nextDirection st \/
               reverseOf (direction st) (nextDirection st') = false;
  keeps_gameover : gameState st' = gameover -> gameState st = gameover;
  keeps_session : inSession st' -> inSession st;
  keeps_requests : requests st' = requests st \/
                   requests st'
                   = requests st ++ [{| req_type := "tip"; req_data := None |}]
}.

(** The game after one tick and the food, reached from the first mount. *)
Definition firstDrawsLeft : list Q := [drawFor 3; drawFor 4].

(** A snake on every cell of the grid. *)
Definition fullSnake : list Position := gridCells.

(** Every key the keyboard handler has a case for. *)
Definition handledKeys : list string :=
  [ "ArrowUp"; "w"; "W"; "ArrowDown"; "s"; "S"; "ArrowLeft"; "a"; "A";
    "ArrowRight"; "d"; "D"; "Escape"; "p"; "P"; "Enter"; " " ].

(** A list of events, one after the other. *)
Fixpoint run (evs : list Event) (st : State) (rng : list Q)
  : option (State * list Q) :=
  match evs with
  | [] => Some (st, rng)
  | ev :: evs =>
      match step ev st rng with
      | Some (st', rng') => run evs st' rng'
      | None => None
      end
  end.

(** The first game played straight into the right wall: one food on the
    way, then the crash on the tenth tick. *)
Definition firstCrash : State :=
  Eval vm_compute in
    match run (PlayButton :: repeat Tick 10) (mount noStorage) firstDraws with
    | Some (st, _) => st
    | None => mount noStorage
    end.

(** The state [startGame] itself hands over in the first game. *)
Definition startedGame : State :=
  Eval vm_compute in
    match startGame (mount noStorage) firstDraws with
    | Some (st, _) => st
    | None => mount noStorage
    end.

(** The game that Play Again starts after the crash. *)
Definition secondGame : State :=
  Eval vm_compute in
    match startGame firstCrash firstDraws with
    | Some (st, _) => st
    | None => firstCrash
    end.

End Game.

(** * The route handler [POST /api/ai-snake] *)

Module AiRoute.

(** The [data] field of a request; a missing member is [None]. *)
Record Data := {
  d_score : option Z;
  d_highScore : option Z;
  d_length : option Z
}.

(** What [request.json()] gives when it resolves to an object.  [type] is
    [None] when the member is absent or is not a string: the [switch]
    compares with [===], so such a value matches no [case]. *)
Record Body := { type : option string; data : option Data }.

(** The prompts of the three cases.  Their text is fixed by the case (and,
    for feedback, by the destructured data), so the case stands for it. *)
Inductive Prompt :=
| TipPrompt
| FeedbackPrompt (d : Data)
| ThemePrompt.

(** The outside world of one call: whether [request.json()] resolves to a
    value that can be destructured ([None]: it rejects, or gives [null]),
    whether [ZAI.create()] resolves, what the completion call gives
    for a prompt and a token limit ([None]: it throws; [Some c]: the text
    of [completion.choices[0]?.message?.content || '']), and the draw of
    [Math.random] that [getFallbackResponse] would take. *)
Record Env := {
  json : option Body;
  create : bool;
  completions_create : Prompt -> Z -> option string;
  random : Q
}.

(** The JSON body of a response and its status. *)
Record Response := {
  status : Z;
  success : option bool;
  content : option string;
  error : option string;
  fallback : option string;
  r_type : option string
}.

Definition tips : list string :=
  [ "Keep your snake near the center to give yourself more reaction time!";
    "Try to create a pattern - it helps avoid trapping yourself!";
    "Move deliberately - speed isn't always your friend in tight spots!";
    "Watch where your tail is heading and plan your path accordingly!";
    "Corner yourself less by circling in wide patterns!" ].

(** [tips[Math.floor(Math.random() * tips.length)]] *)
Definition getFallbackResponse (r : Q) : option string :=
  let i := Qfloor (r * inject_Z (Z.of_nat (List.length tips))) in
  if i <? 0 then None else nth_error tips (Z.to_nat i).

(** [String.prototype.trim], on the ASCII white space. *)
Definition isSpace (c : Ascii.ascii) : bool :=
  let n := Ascii.nat_of_ascii c in
  (Nat.eqb n 32 || (Nat.leb 9 n && Nat.leb n 13))%bool.

Fixpoint trimStart (s : string) : string :=
  match s with
  | String c s' => if isSpace c then trimStart s' else s
  | EmptyString => EmptyString
  end.

Fixpoint trimEnd (s : string) : string :=
  match s with
  | String c s' =>
      match trimEnd s' with
      | EmptyString => if isSpace c then EmptyString else String c EmptyString
      | t => String c t
      end
  | EmptyString => EmptyString
  end.

Definition trim (s : string) : string := trimEnd (trimStart s).

(** The [catch] branch. *)
Definition failed (env : Env) : Response :=
  {| status := 500;
     success := Some false;
     content := None;
     error := Some "Failed to get AI response";
     fallback := getFallbackResponse (random env);
     r_type := None |}.

(** The [default] branch of the [switch]. *)
Definition invalidType : Response :=
  {| status := 400;
     success := None;
     content := None;
     error := Some "Invalid request type";
     fallback := None;
     r_type := None |}.

(** The [switch (type)]: the prompt and [maxTokens] of a case, or [None]
    for the [default] branch. *)
Definition promptOf (b : Body) : option (Prompt * Z) :=
  match type b with
  | Some t =>
      if String.eqb t "tip" then Some (TipPrompt, 80)
      else if String.eqb t "feedback" then
        let d := match data b with
                 | Some d => d
                 | None => {| d_score := None; d_highScore := None; d_length := None |}
                 end in
        Some (FeedbackPrompt d, 100)
      else if String.eqb t "theme" then Some (ThemePrompt, 20)
      else None
  | None => None
  end.

Definition POST (env : Env) : Response :=
  match json env with
  | None => failed env
  | Some b =>
      if create env then
        match promptOf b with
        | None => invalidType
        | Some (prompt, maxTokens) =>
            match completions_create env prompt maxTokens with
            | None => failed env
            | Some c =>
                {| status := 200;
                   success := Some true;
                   content := Some (trim c);
                   error := None;
                   fallback := None;
                   r_type := type b |}
            end
        end
      else failed env
  end.

(** ** Scenarios *)

(** A world in which the SDK works and answers every prompt alike. *)
Definition answering (b : Body) : Env :=
  {| json := Some b;
     create := true;
     completions_create := fun _ _ => Some " Midnight Ember ";
     random := 0 |}.

Definition themeBody : Body := {| type := Some "theme"; data := None |}.
Definition hintBody : Body := {| type := Some "hint"; data := None |}.

End AiRoute.

(** * The request on the wire *)

Module Wire.

(** [JSON.stringify] on the page, [request.json()] in the route: the body
    the route sees for a request of the page. *)
Definition toBody (r : Game.AiRequest) : AiRoute.Body :=
  {| AiRoute.type := Some (Game.req_type r);
     AiRoute.data :=
       match Game.req_data r with
       | Some d =>
           Some {| AiRoute.d_score := Some (Game.fd_score d);
                   AiRoute.d_highScore := Some (Game.fd_highScore d);
                   AiRoute.d_length := Some (Game.fd_length d) |}
       | None => None
       end |}.

(** [response.json()] on the page: a member the route left out reads as
    [undefined], which [||] treats like the empty string. *)
Definition toAnswer (r : AiRoute.Response) : Game.AiAnswer :=
  {| Game.content := match AiRoute.content r with Some c => c | None => "" end;
     Game.fallback := match AiRoute.fallback r with Some f => f | None => "" end |}.

(** A world around a given body in which the SDK cannot be created. *)
Definition sdkDown (b : AiRoute.Body) : AiRoute.Env :=
  {| AiRoute.json := Some b;
     AiRoute.create := false;
     AiRoute.completions_create := fun _ _ => None;
     AiRoute.random := 3 # 5 |}.

(** The feedback request the first crash sends. *)
Definition crashRequest : Game.AiRequest :=
  {| Game.req_type := "feedback";
     Game.req_data := Some {| Game.fd_score := 10;
                              Game.fd_highScore := 0;
                              Game.fd_length := 2 |} |}.

End Wire.

(** * Properties of the game *)

Module GameFacts.
Import Game.

(** ** Positions and membership *)

Lemma samePosition_eq (p q : Position) : samePosition p q = true <-> p = q.
Proof.
  unfold samePosition. rewrite andb_true_iff, !Z.eqb_eq.
  destruct p, q; simpl. split.
  - intros [-> ->]. reflexivity.
  - intros E. injection E. auto.
Qed.

Lemma onSnake_In (p : Position) (l : list Position) :
  onSnake p l = true <-> In p l.
Proof.
  unfold onSnake. rewrite existsb_exists. split.
  - intros [s [Hin Hs]]. apply samePosition_eq in Hs. now subst.
  - intros Hin. exists p. split; [assumption | now apply samePosition_eq].
Qed.

Lemma onSnake_not_In (p : Position) (l : list Position) :
  onSnake p l = false <-> ~ In p l.
Proof.
  rewrite <- onSnake_In. destruct (onSnake p l); split; congruence.
Qed.

Lemma hitsWall_inGrid (p : Position) : hitsWall p = false <-> inGrid p.
Proof.
  unfold hitsWall, inGrid.
  rewrite !orb_false_iff, !Z.ltb_ge, !Z.geb_leb, !Z.leb_gt. lia.
Qed.

(** ** The random source *)

Lemma randomCoordinate_range (r : Q) :
  unitDraw r -> 0 <= randomCoordinate r < GRID_SIZE.
Proof.
  intros [Hlo Hhi]. unfold randomCoordinate, GRID_SIZE. split.
  - change 0 with (Qfloor (inject_Z 0)). apply Qfloor_resp_le.
    change (inject_Z 0) with (0 * inject_Z 20)%Q.
    apply Qmult_le_compat_r; [assumption | discriminate].
  - rewrite Zlt_Qlt.
    apply Qle_lt_trans with (r * inject_Z 20)%Q; [apply Qfloor_le |].
    setoid_replace (inject_Z 20) with (1 * inject_Z 20)%Q at 2 by ring.
    apply Qmult_lt_compat_r; [reflexivity | assumption].
Qed.

Lemma drawnCell_inGrid (rx ry : Q) :
  unitDraw rx -> unitDraw ry -> inGrid (drawnCell rx ry).
Proof.
  intros Hx Hy. split; simpl; now apply randomCoordinate_range.
Qed.

Lemma drawFor_unit (c : Z) : 0 <= c < GRID_SIZE -> unitDraw (drawFor c).
Proof.
  unfold GRID_SIZE, unitDraw, drawFor, Qle, Qlt. simpl. lia.
Qed.

Lemma randomCoordinate_drawFor (c : Z) : randomCoordinate (drawFor c) = c.
Proof.
  unfold randomCoordinate, drawFor, GRID_SIZE, Qfloor, Qmult, inject_Z.
  simpl Qnum. simpl Qden. apply Z.div_mul. discriminate.
Qed.

(** ** Food placement *)

Lemma generateFood_accepts (currentSnake : list Position) (pre : list Q) :
  Rejected currentSnake pre ->
  forall rx ry rest,
    onSnake (drawnCell rx ry) currentSnake = false ->
    generateFood (pre ++ rx :: ry :: rest) currentSnake
    = Some (drawnCell rx ry, rest).
Proof.
  induction 1 as [| qx qy rng Hon _ IH]; intros rx ry rest Hfree.
  - simpl. fold (drawnCell rx ry). now rewrite Hfree.
  - simpl. fold (drawnCell qx qy). rewrite Hon. now apply IH.
Qed.

Lemma generateFood_inv (currentSnake : list Position) :
  forall rng newFood rest,
    generateFood rng currentSnake = Some (newFood, rest) ->
    exists pre rx ry,
      rng = pre ++ rx :: ry :: rest /\
      Rejected currentSnake pre /\
      newFood = drawnCell rx ry /\
      onSnake newFood currentSnake = false.
Proof.
  fix IH 1. intros [| rx [| ry rng]] newFood rest; simpl; try discriminate.
  fold (drawnCell rx ry).
  destruct (onSnake (drawnCell rx ry) currentSnake) eqn:Hon.
  - intros H. destruct (IH rng newFood rest H) as (pre & qx & qy & E & R & F & N).
    exists (rx :: ry :: pre), qx, qy. subst rng.
    repeat split; try assumption. now constructor.
  - intros H. injection H as <- <-.
    exists [], rx, ry. repeat split; try assumption. constructor.
Qed.

Lemma generateFood_free (currentSnake : list Position) rng newFood rest :
  Forall unitDraw rng ->
  generateFood rng currentSnake = Some (newFood, rest) ->
  inGrid newFood /\ ~ In newFood currentSnake.
Proof.
  intros Hall H.
  destruct (generateFood_inv _ _ _ _ H) as (pre & rx & ry & E & _ & F & N).
  subst rng newFood. rewrite Forall_app in Hall. destruct Hall as [_ Hall].
  inversion Hall as [| ? ? Hx Hall']; subst.
  inversion Hall' as [| ? ? Hy _]; subst.
  split; [now apply drawnCell_inGrid | now apply onSnake_not_In].
Qed.

(** ** A snake that leaves a cell free *)

Lemma gridCells_length : List.length gridCells = Z.to_nat (GRID_SIZE * GRID_SIZE).
Proof. reflexivity. Qed.

Lemma gridCells_NoDup : NoDup gridCells.
Proof.
  replace gridCells with (nodup Position_eq_dec gridCells)
    by (vm_compute; reflexivity).
  apply NoDup_nodup.
Qed.

Lemma gridCells_inGrid (c : Position) : In c gridCells -> inGrid c.
Proof.
  intros Hin. apply hitsWall_inGrid.
  assert (H : forallb (fun c => negb (hitsWall c)) gridCells = true)
    by (vm_compute; reflexivity).
  rewrite forallb_forall in H. apply negb_true_iff. now apply H.
Qed.

Lemma free_cell (currentSnake : list Position) :
  Z.of_nat (occupied currentSnake) < GRID_SIZE * GRID_SIZE ->
  exists c, inGrid c /\ ~ In c currentSnake.
Proof.
  intros Hocc.
  destruct (find (fun c => negb (onSnake c currentSnake)) gridCells) as [c |] eqn:F.
  - apply find_some in F. destruct F as [Hin Hfree].
    exists c. split; [now apply gridCells_inGrid |].
    apply onSnake_not_In. now apply negb_true_iff.
  - exfalso.
    assert (Hincl : incl gridCells (nodup Position_eq_dec currentSnake)).
    { intros c Hin. apply nodup_In. apply onSnake_In.
      pose proof (find_none _ _ F c Hin) as Hc.
      now apply negb_false_iff in Hc. }
    pose proof (NoDup_incl_length gridCells_NoDup Hincl) as Hlen.
    rewrite gridCells_length in Hlen. unfold occupied in Hocc. lia.
Qed.

Lemma free_draw (currentSnake : list Position) :
  Z.of_nat (occupied currentSnake) < GRID_SIZE * GRID_SIZE ->
  exists rx ry,
    unitDraw rx /\ unitDraw ry /\ onSnake (drawnCell rx ry) currentSnake = false.
Proof.
  intros Hocc. destruct (free_cell _ Hocc) as (c & [Hx Hy] & Hfree).
  exists (drawFor (x c)), (drawFor (y c)).
  split; [now apply drawFor_unit |]. split; [now apply drawFor_unit |].
  apply onSnake_not_In. unfold drawnCell.
  rewrite !randomCoordinate_drawFor. now destruct c.
Qed.

(** ** The tick, case by case *)

Lemma tick_empty st rng :
  snake st = [] -> tick st rng = Some (setDirection (nextDirection st) st, rng).
Proof. unfold tick. now intros ->. Qed.

Lemma tick_collision st rng :
  collided st = true ->
  tick st rng
  = Some (triggerGameOver (Z.of_nat (List.length (snake st))) (scoreRef st)
            (setDirection (nextDirection st) st), rng).
Proof.
  unfold collided, newHead, tick.
  destruct (snake st) as [| segment0 body]; [discriminate |].
  cbn [snake scoreRef setDirection].
  destruct (hitsWall (moveHead (nextDirection st) segment0)); [reflexivity |].
  cbn [orb]. now intros ->.
Qed.

Lemma tick_move st rng head :
  newHead st = Some head ->
  collided st = false ->
  ateFood st = false ->
  tick st rng
  = Some (setSnake (pop (head :: snake st)) (setDirection (nextDirection st) st),
          rng).
Proof.
  unfold collided, ateFood, newHead, tick, samePosition.
  destruct (snake st) as [| segment0 body]; [discriminate |].
  intros [= <-]. cbn [food setDirection].
  rewrite orb_false_iff. intros [-> ->]. now intros ->.
Qed.

Lemma tick_eat st rng head :
  newHead st = Some head ->
  collided st = false ->
  ateFood st = true ->
  tick st rng
  = match generateFood rng (head :: snake st) with
    | None => None
    | Some (newFood, rng') =>
        Some (setSnake (head :: snake st)
                (setSpeed (Z.max MIN_SPEED (speed st - SPEED_INCREMENT))
                   (setFood newFood
                      (setScore (score st + 10)
                         (setDirection (nextDirection st) st)))),
              rng')
    end.
Proof.
  unfold collided, ateFood, newHead, tick, samePosition.
  destruct (snake st) as [| segment0 body]; [discriminate |].
  intros [= <-]. cbn [food setDirection].
  rewrite orb_false_iff. intros [-> ->]. intros ->.
  destruct (generateFood rng _) as [[newFood rng'] |]; reflexivity.
Qed.

Lemma tick_unfinished st rng :
  tick st rng = None ->
  collided st = false /\ ateFood st = true /\
  exists head, newHead st = Some head /\
               generateFood rng (head :: snake st) = None.
Proof.
  intros H.
  destruct (newHead st) as [head |] eqn:Hh.
  - destruct (collided st) eqn:Hc.
    { rewrite tick_collision in H by assumption. discriminate. }
    destruct (ateFood st) eqn:Ha.
    + rewrite (tick_eat _ _ _ Hh Hc Ha) in H.
      destruct (generateFood rng (head :: snake st)) as [[? ?] |] eqn:G;
        [discriminate |].
      repeat split. exists head. now split.
    + rewrite (tick_move _ _ _ Hh Hc Ha) in H. discriminate.
  - unfold newHead in Hh. destruct (snake st) eqn:Hs; [| discriminate].
    rewrite tick_empty in H by assumption. discriminate.
Qed.

Lemma pop_length (head : Position) (l : list Position) :
  List.length (pop (head :: l)) = List.length l.
Proof.
  unfold pop. revert head. induction l as [| a l IH]; intros head.
  - reflexivity.
  - change (removelast (head :: a :: l)) with (head :: removelast (a :: l)).
    cbn [List.length]. f_equal. apply IH.
Qed.

Lemma triggerGameOver_endsGame snakeLength finalScore st :
  endsGame st (triggerGameOver snakeLength finalScore st).
Proof.
  unfold endsGame, triggerGameOver. cbn [highScore setGameState].
  destruct (finalScore >? highScore st); repeat split.
Qed.

Lemma tick_collision_endsGame st rng :
  collided st = true ->
  exists st', tick st rng = Some (st', rng) /\ endsGame st st'.
Proof.
  intros Hc. rewrite (tick_collision _ _ Hc). eexists. split; [reflexivity |].
  exact (triggerGameOver_endsGame _ _ (setDirection (nextDirection st) st)).
Qed.

(** ** The scenarios, run *)


(** One tick onto the food: the snake grows, the score goes up by 10, the
    speed down by 5, and the food moves to the drawn cell (3,4). *)
Example tick_eats_food :
  tick scenarioFood [drawFor 3; drawFor 4]
  = Some (setSnake [{| x := 11; y := 10 |}; {| x := 10; y := 10 |}]
            (setSpeed 145
               (setFood {| x := 3; y := 4 |} (setScore 10 scenarioFood))),
          []).
Proof. reflexivity. Qed.

(** A draw that lands on the snake is drawn again. *)
Example generateFood_retries :
  generateFood [drawFor 10; drawFor 10; drawFor 0; drawFor 19] [startCell]
  = Some ({| x := 0; y := 19 |}, []).
Proof. reflexivity. Qed.

(** Off the left edge: game over, the snake stays. *)
Example tick_hits_wall :
  option_map (fun r => (gameState (fst r), snake (fst r))) (tick scenarioWall [])
  = Some (gameover, [{| x := 0; y := 10 |}]).
Proof. reflexivity. Qed.

(** Into the tail cell: game over as well. *)
Example tick_hits_tail :
  option_map (fun r => (gameState (fst r), List.length (snake (fst r))))
    (tick scenarioTail [])
  = Some (gameover, 4%nat).
Proof. reflexivity. Qed.

(** ** Length of the snake *)

(** C1: a tick that completes without a collision leaves a snake one longer
    when the new head is on the food, and as long as before otherwise.  A
    tick that does not eat always completes; one that eats completes as
    soon as the food placement does. *)
Theorem tick_length st rng :
  collided st = false ->
  (forall st' rng',
      tick st rng = Some (st', rng') ->
      List.length (snake st')
      = (List.length (snake st) + (if ateFood st then 1 else 0))%nat) /\
  (ateFood st = false -> exists st', tick st rng = Some (st', rng)) /\
  (ateFood st = true ->
   forall head newFood rng',
     newHead st = Some head ->
     generateFood rng (head :: snake st) = Some (newFood, rng') ->
     exists st', tick st rng = Some (st', rng')).
Proof.
  intros Hc. destruct (newHead st) as [head |] eqn:Hh.
  - destruct (ateFood st) eqn:Ha.
    + rewrite (tick_eat _ _ _ Hh Hc Ha). repeat split.
      * intros st' rng'.
        destruct (generateFood rng (head :: snake st)) as [[newFood r] |];
          [| discriminate].
        intros [= <- <-]. cbn [snake setSnake List.length]. lia.
      * discriminate.
      * intros _ h newFood rng' [= <-] ->. eexists. reflexivity.
    + rewrite (tick_move _ _ _ Hh Hc Ha). repeat split.
      * intros st' rng' [= <- <-].
        change (List.length (pop (head :: snake st))
                = (List.length (snake st) + 0)%nat).
        rewrite pop_length. lia.
      * intros _. eexists. reflexivity.
      * discriminate.
  - assert (Hs : snake st = [])
      by (unfold newHead in Hh; destruct (snake st); [reflexivity | discriminate]).
    assert (Ha : ateFood st = false) by (unfold ateFood; now rewrite Hh).
    rewrite (tick_empty _ _ Hs), Ha. repeat split.
    + intros st' rng' [= <- <-]. cbn [snake setDirection]. lia.
    + intros _. eexists. reflexivity.
    + discriminate.
Qed.

Lemma tick_length_witness :
  collided scenarioFood = false /\
  ((forall st' rng',
       tick scenarioFood [drawFor 3; drawFor 4] = Some (st', rng') ->
       List.length (snake st')
       = (List.length (snake scenarioFood)
          + (if ateFood scenarioFood then 1 else 0))%nat) /\
   (ateFood scenarioFood = false ->
    exists st', tick scenarioFood [drawFor 3; drawFor 4]
                = Some (st', [drawFor 3; drawFor 4])) /\
   (ateFood scenarioFood = true ->
    forall head newFood rng',
      newHead scenarioFood = Some head ->
      generateFood [drawFor 3; drawFor 4] (head :: snake scenarioFood)
      = Some (newFood, rng') ->
      exists st', tick scenarioFood [drawFor 3; drawFor 4] = Some (st', rng'))).
Proof.
  split; [reflexivity |].
  apply (tick_length scenarioFood [drawFor 3; drawFor 4]). reflexivity.
Defined.

(** ** Collisions *)

(** C2: the new head is looked up in the body as it is before the move.
    When it is one of the segments, and in particular when it is the last
    one, the tail, the tick ends the game. *)
Theorem tick_self_collision st rng head :
  newHead st = Some head ->
  (In head (snake st) ->
   exists st', tick st rng = Some (st', rng) /\ endsGame st st') /\
  (forall body, snake st = body ++ [head] ->
   exists st', tick st rng = Some (st', rng) /\ endsGame st st').
Proof.
  intros Hh.
  assert (H : In head (snake st) ->
              exists st', tick st rng = Some (st', rng) /\ endsGame st st').
  { intros Hin. apply tick_collision_endsGame.
    unfold collided. rewrite Hh.
    apply orb_true_iff. right. now apply onSnake_In. }
  split; [exact H |].
  intros body E. apply H. rewrite E. apply in_or_app. right. now left.
Qed.

Lemma tick_self_collision_witness :
  newHead scenarioTail = Some {| x := 11; y := 10 |} /\
  ((In {| x := 11; y := 10 |} (snake scenarioTail) ->
    exists st', tick scenarioTail [] = Some (st', []) /\ endsGame scenarioTail st') /\
   (forall body, snake scenarioTail = body ++ [{| x := 11; y := 10 |}] ->
    exists st', tick scenarioTail [] = Some (st', []) /\ endsGame scenarioTail st')).
Proof.
  split; [reflexivity |].
  apply (tick_self_collision scenarioTail [] {| x := 11; y := 10 |}). reflexivity.
Defined.

(** C3: when the new head is off the grid on either axis, the tick ends the
    game and hands back the snake it was given. *)
Theorem tick_wall_collision st rng head :
  newHead st = Some head ->
  ~ inGrid head ->
  exists st', tick st rng = Some (st', rng) /\ endsGame st st'.
Proof.
  intros Hh Hout. apply tick_collision_endsGame.
  unfold collided. rewrite Hh.
  destruct (hitsWall head) eqn:Hw; [reflexivity |].
  now apply hitsWall_inGrid in Hw.
Qed.

Lemma tick_wall_collision_witness :
  newHead scenarioWall = Some {| x := -1; y := 10 |} /\
  ~ inGrid {| x := -1; y := 10 |} /\
  exists st', tick scenarioWall [] = Some (st', []) /\ endsGame scenarioWall st'.
Proof.
  assert (Hh : newHead scenarioWall = Some {| x := -1; y := 10 |}) by reflexivity.
  assert (Hout : ~ inGrid {| x := -1; y := 10 |})
    by (unfold inGrid; simpl; lia).
  split; [exact Hh |]. split; [exact Hout |].
  exact (tick_wall_collision scenarioWall [] _ Hh Hout).
Defined.

(** ** Food placement and the snake *)

Lemma startGame_food st rng st' rng' :
  Forall unitDraw rng ->
  startGame st rng = Some (st', rng') ->
  inGrid (food st') /\ ~ In (food st') (snake st').
Proof.
  intros Hall H. unfold startGame in H.
  destruct (generateFood rng [{| x := 10; y := 10 |}]) as [[newFood r] |] eqn:G;
    [| discriminate].
  injection H as <- <-.
  exact (generateFood_free _ _ _ _ Hall G).
Qed.

(** C4: a snake that covers fewer cells than the grid has leaves a draw that
    [generateFood] accepts; the loop returns at the first such draw; and
    whatever it returns is a cell of the grid that is no segment of the
    snake.  The two callers place the food against the very snake they
    store, so right after placement the food is not on the snake. *)
Theorem generateFood_unoccupied :
  (forall currentSnake,
      Z.of_nat (occupied currentSnake) < GRID_SIZE * GRID_SIZE ->
      exists rx ry,
        unitDraw rx /\ unitDraw ry /\
        forall rest,
          generateFood (rx :: ry :: rest) currentSnake
          = Some (drawnCell rx ry, rest)) /\
  (forall currentSnake pre rx ry rest,
      Rejected currentSnake pre ->
      onSnake (drawnCell rx ry) currentSnake = false ->
      generateFood (pre ++ rx :: ry :: rest) currentSnake
      = Some (drawnCell rx ry, rest)) /\
  (forall currentSnake rng newFood rest,
      Forall unitDraw rng ->
      generateFood rng currentSnake = Some (newFood, rest) ->
      inGrid newFood /\
      forall segment, In segment currentSnake -> segment <> newFood) /\
  (forall st rng st' rng',
      Forall unitDraw rng ->
      collided st = false ->
      ateFood st = true ->
      tick st rng = Some (st', rng') ->
      inGrid (food st') /\ ~ In (food st') (snake st')) /\
  (forall st rng st' rng',
      Forall unitDraw rng ->
      startGame st rng = Some (st', rng') ->
      inGrid (food st') /\ ~ In (food st') (snake st')).
Proof.
  split; [| split; [| split; [| split]]].
  - intros currentSnake Hocc.
    destruct (free_draw _ Hocc) as (rx & ry & Hx & Hy & Hfree).
    exists rx, ry. repeat split; try apply Hx; try apply Hy.
    intros rest.
    exact (generateFood_accepts _ [] (Rejected_nil _) rx ry rest Hfree).
  - intros currentSnake pre rx ry rest HR Hfree.
    now apply generateFood_accepts.
  - intros currentSnake rng newFood rest Hall H.
    destruct (generateFood_free _ _ _ _ Hall H) as [Hg Hn].
    split; [assumption |]. intros segment Hin ->. contradiction.
  - intros st rng st' rng' Hall Hc Ha H.
    destruct (newHead st) as [head |] eqn:Hh;
      [| unfold ateFood in Ha; rewrite Hh in Ha; discriminate].
    rewrite (tick_eat _ _ _ Hh Hc Ha) in H.
    destruct (generateFood rng (head :: snake st)) as [[newFood r] |] eqn:G;
      [| discriminate].
    injection H as <- <-.
    exact (generateFood_free _ _ _ _ Hall G).
  - exact startGame_food.
Qed.

Lemma generateFood_unoccupied_witness :
  Z.of_nat (occupied (snake scenarioTail)) < GRID_SIZE * GRID_SIZE /\
  exists rx ry,
    unitDraw rx /\ unitDraw ry /\
    forall rest,
      generateFood (rx :: ry :: rest) (snake scenarioTail)
      = Some (drawnCell rx ry, rest).
Proof.
  assert (H : Z.of_nat (occupied (snake scenarioTail)) < GRID_SIZE * GRID_SIZE)
    by reflexivity.
  split; [exact H |].
  exact (proj1 generateFood_unoccupied (snake scenarioTail) H).
Defined.

(** ** Start *)

Lemma startGame_eq st rng :
  startGame st rng
  = match generateFood rng [startCell] with
    | None => None
    | Some (newFood, rng') =>
        Some (setGameState playing
                (setAiFeedback ""
                   (setAiTip ""
                      (setSpeed (savedSpeed st)
                         (setScore 0
                            (setNextDirection RIGHT
                               (setDirection RIGHT
                                  (setFood newFood
                                     (setSnake [startCell] st)))))))),
              rng')
    end.
Proof.
  unfold startGame, startCell.
  destruct (generateFood rng _) as [[newFood rng'] |]; reflexivity.
Qed.

Lemma startGame_returns st pre rx ry rest :
  Rejected [startCell] pre ->
  drawnCell rx ry <> startCell ->
  exists st', startGame st (pre ++ rx :: ry :: rest) = Some (st', rest).
Proof.
  intros HR Hne. rewrite startGame_eq.
  rewrite (generateFood_accepts _ _ HR rx ry rest).
  - eexists. reflexivity.
  - apply onSnake_not_In. intros [E | []]. now apply Hne.
Qed.

(** C8: the start command, the Play button or the Enter and space keys in
    the menu and on the game-over screen, begins a session with the snake
    on the start cell alone, heading right, score 0, the saved speed (the
    initial speed when none is saved) and a food placed off the snake.  It
    completes at the first draw off the start cell. *)
Theorem startGame_resets st rng :
  (forall st' rng',
      Forall unitDraw rng ->
      startGame st rng = Some (st', rng') ->
      gameState st' = playing /\
      snake st' = [startCell] /\
      direction st' = RIGHT /\
      nextDirection st' = RIGHT /\
      score st' = 0 /\
      speed st' = savedSpeed st /\
      inGrid (food st') /\
      ~ In (food st') (snake st')) /\
  (forall pre rx ry rest,
      rng = pre ++ rx :: ry :: rest ->
      Rejected [startCell] pre ->
      drawnCell rx ry <> startCell ->
      exists st', startGame st rng = Some (st', rest)) /\
  (gameState st = menu \/ gameState st = gameover ->
   dispatch PlayButton st rng = startGame st rng /\
   dispatch (KeyDown "Enter") st rng = startGame st rng /\
   dispatch (KeyDown " ") st rng = startGame st rng).
Proof.
  split; [| split].
  - intros st' rng' Hall H.
    destruct (startGame_food st rng st' rng' Hall H) as [Hg Hn].
    rewrite startGame_eq in H.
    destruct (generateFood rng [startCell]) as [[newFood r] |]; [| discriminate].
    injection H as <- <-.
    do 6 (split; [reflexivity |]). split; assumption.
  - intros pre rx ry rest -> HR Hne. now apply startGame_returns.
  - intros [E | E]; unfold dispatch, handleKeyDown; rewrite E; repeat split.
Qed.

Lemma startGame_resets_witness :
  Forall unitDraw [drawFor 3; drawFor 4] /\
  exists st',
    startGame (initialState noStorage) [drawFor 3; drawFor 4] = Some (st', []) /\
    gameState st' = playing /\
    snake st' = [startCell] /\
    direction st' = RIGHT /\
    nextDirection st' = RIGHT /\
    score st' = 0 /\
    speed st' = INITIAL_SPEED /\
    inGrid (food st') /\
    ~ In (food st') (snake st').
Proof.
  assert (Hall : Forall unitDraw [drawFor 3; drawFor 4]).
  { repeat constructor; apply drawFor_unit; unfold GRID_SIZE; lia. }
  split; [exact Hall |].
  eexists. split; [reflexivity |].
  exact (proj1 (startGame_resets (initialState noStorage) [drawFor 3; drawFor 4])
           _ _ Hall eq_refl).
Defined.

(** C10: the start command empties the AI tip and the AI feedback, so the
    session begins without AI text from the menu or the last game over. *)
Theorem startGame_clears_ai st rng :
  (forall st' rng',
      startGame st rng = Some (st', rng') ->
      aiTip st' = "" /\ aiFeedback st' = "") /\
  (forall pre rx ry rest,
      rng = pre ++ rx :: ry :: rest ->
      Rejected [startCell] pre ->
      drawnCell rx ry <> startCell ->
      exists st', startGame st rng = Some (st', rest)).
Proof.
  split.
  - intros st' rng'. rewrite startGame_eq.
    destruct (generateFood rng [startCell]) as [[newFood r] |]; [| discriminate].
    intros [= <- <-]. split; reflexivity.
  - intros pre rx ry rest -> HR Hne. now apply startGame_returns.
Qed.

Lemma startGame_clears_ai_witness :
  exists st',
    startGame (setAiFeedback "Great effort!" (setGameState gameover scenarioWall))
      [drawFor 10; drawFor 10; drawFor 3; drawFor 4]
    = Some (st', []) /\
    aiTip st' = "" /\ aiFeedback st' = "".
Proof.
  eexists. split; [reflexivity |].
  exact (proj1 (startGame_clears_ai
                  (setAiFeedback "Great effort!" (setGameState gameover scenarioWall))
                  [drawFor 10; drawFor 10; drawFor 3; drawFor 4])
           _ _ eq_refl).
Defined.

(** ** Direction requests *)






(** ** Speed *)

Lemma triggerGameOver_speed snakeLength finalScore st :
  speed (triggerGameOver snakeLength finalScore st) = speed st /\
  snake_speed (localStorage (triggerGameOver snakeLength finalScore st))
  = snake_speed (localStorage st).
Proof.
  unfold triggerGameOver. cbn [highScore setGameState].
  destruct (finalScore >? highScore st); split; reflexivity.
Qed.

Lemma tick_speed st rng st' rng' :
  tick st rng = Some (st', rng') ->
  speed st'
  = (if negb (collided st) && ateFood st
     then Z.max MIN_SPEED (speed st - SPEED_INCREMENT)
     else speed st) /\
  snake_speed (localStorage st') = snake_speed (localStorage st).
Proof.
  intros H. destruct (collided st) eqn:Hc.
  - rewrite (tick_collision _ _ Hc) in H. injection H as <- <-.
    apply (triggerGameOver_speed _ _ (setDirection (nextDirection st) st)).
  - destruct (newHead st) as [head |] eqn:Hh.
    + destruct (ateFood st) eqn:Ha.
      * rewrite (tick_eat _ _ _ Hh Hc Ha) in H.
        destruct (generateFood rng (head :: snake st)) as [[newFood r] |];
          [| discriminate].
        injection H as <- <-. split; reflexivity.
      * rewrite (tick_move _ _ _ Hh Hc Ha) in H.
        injection H as <- <-. split; reflexivity.
    + assert (Hs : snake st = [])
        by (unfold newHead in Hh; destruct (snake st);
            [reflexivity | discriminate]).
      rewrite (tick_empty _ _ Hs) in H. injection H as <- <-.
      unfold ateFood. rewrite Hh. split; reflexivity.
Qed.

Lemma tick_speed_floor st rng st' rng' :
  tick st rng = Some (st', rng') ->
  MIN_SPEED <= speed st ->
  MIN_SPEED <= speed st' <= speed st.
Proof.
  intros H Hmin. destruct (tick_speed _ _ _ _ H) as [-> _].
  unfold SPEED_INCREMENT in *.
  destruct (negb (collided st) && ateFood st); lia.
Qed.

(** What a handler other than the tick and the start does to the speed and
    to the saved speed: nothing. *)
Ltac handler_keeps_speed H :=
  repeat match type of H with
         | context [if ?b then _ else _] => destruct b
         | context [match ?a with Some _ => _ | None => _ end] => destruct a
         end;
  injection H as <- <-; split; reflexivity.

Lemma handleKeyDown_playing_speed key st rng st' rng' :
  gameState st = playing \/ gameState st = paused ->
  handleKeyDown key st rng = Some (st', rng') ->
  speed st' = speed st /\
  snake_speed (localStorage st') = snake_speed (localStorage st).
Proof.
  unfold handleKeyDown. intros [E | E] H; rewrite E in H; handler_keeps_speed H.
Qed.



(** Every state the page reaches has its speed at or above the minimum, the
    saved speed equal to the speed and the score ref equal to the score. *)
Lemma startGame_speed st rng st' rng' :
  startGame st rng = Some (st', rng') -> speed st' = savedSpeed st.
Proof.
  rewrite startGame_eq.
  destruct (generateFood rng [startCell]) as [[newFood r] |]; [| discriminate].
  now intros [= <- <-].
Qed.

Lemma dispatch_speed_floor ev st rng st' rng' :
  MIN_SPEED <= speed st ->
  snake_speed (localStorage st) = Some (speed st) ->
  dispatch ev st rng = Some (st', rng') ->
  MIN_SPEED <= speed st'.
Proof.
  intros Hmin Hsaved H.
  assert (Hstart : forall r, startGame st r = Some (st', rng') ->
                             MIN_SPEED <= speed st').
  { intros r S. rewrite (startGame_speed _ _ _ _ S).
    unfold savedSpeed. now rewrite Hsaved. }
  assert (Hkeep : speed st' = speed st -> MIN_SPEED <= speed st') by lia.
  destruct ev; unfold dispatch in H.
  - unfold gameLoop in H. destruct (gameState st);
      try (injection H as <- <-; exact Hmin).
    now apply (tick_speed_floor _ _ _ _ H).
  - assert (K : handleKeyDown key st rng = Some (st', rng'))
      by (destruct (gameState st); exact H).
    destruct (gameState st) eqn:E.
    + unfold handleKeyDown in K. rewrite E in K.
      destruct (keyIs key ["Enter"; " "]); [now apply (Hstart rng) |].
      injection K as <- <-. exact Hmin.
    + apply Hkeep.
      now apply (handleKeyDown_playing_speed key st rng st' rng' (or_introl E)).
    + apply Hkeep.
      now apply (handleKeyDown_playing_speed key st rng st' rng' (or_intror E)).
    + unfold handleKeyDown in K. rewrite E in K.
      destruct (keyIs key ["Enter"; " "]); [now apply (Hstart rng) |].
      injection K as <- <-. exact Hmin.
  - apply Hkeep. destruct (gameState st); now injection H as <- <-.
  - apply Hkeep. unfold handleTouchEnd in H.
    destruct (gameState st); handler_keeps_speed H.
  - apply Hkeep. unfold handleDirectionButton in H.
    destruct (gameState st); handler_keeps_speed H.
  - apply Hkeep. destruct (gameState st); now injection H as <- <-.
  - apply Hkeep. destruct (gameState st); now injection H as <- <-.
  - apply Hkeep. destruct (gameState st); now injection H as <- <-.
  - destruct (gameState st); try (injection H as <- <-; exact Hmin);
      now apply (Hstart rng).
  - apply Hkeep. destruct (gameState st); now injection H as <- <-.
  - destruct (gameState st); try (injection H as <- <-; exact Hmin).
    destruct (sliderValue v) eqn:V; injection H as <- <-; [| exact Hmin].
    unfold sliderValue in V. cbn [speed setSpeed].
    apply andb_true_iff in V. destruct V as [V _].
    apply andb_true_iff in V. destruct V as [V _]. now apply Z.leb_le.
  - apply Hkeep. unfold fetchAiTip in H.
    destruct (gameState st); handler_keeps_speed H.
  - apply Hkeep. unfold aiTipSettled in H.
    destruct (gameState st); handler_keeps_speed H.
  - apply Hkeep. unfold aiFeedbackSettled in H.
    destruct (gameState st); handler_keeps_speed H.
Qed.

Lemma reachable_invariant st :
  Reachable st ->
  MIN_SPEED <= speed st /\
  snake_speed (localStorage st) = Some (speed st) /\
  scoreRef st = score st.
Proof.
  induction 1 as [| st _ IH | ev st rng st' rng' _ IH Hstep].
  - repeat split. unfold MIN_SPEED. cbn. unfold INITIAL_SPEED. lia.
  - destruct IH as (Hmin & Hsaved & _). repeat split.
    cbn. now rewrite Hsaved.
  - destruct IH as (Hmin & Hsaved & _). unfold step in Hstep.
    destruct (dispatch ev st rng) as [[st1 rng1] |] eqn:D; [| discriminate].
    injection Hstep as <- <-. repeat split.
    exact (dispatch_speed_floor _ _ _ _ _ Hmin Hsaved D).
Qed.




(** ** Game over and the high score *)

(** C7: entering game over stores the final score as high score exactly
    when it is above the high score so far, in the hook and in the local
    storage; otherwise both stay.  The tick that collides enters game over
    with the score ref as final score, which in every state the page
    reaches is the score. *)
Theorem triggerGameOver_highScore snakeLength finalScore st :
  gameState (triggerGameOver snakeLength finalScore st) = gameover /\
  (highScore st < finalScore ->
   highScore (triggerGameOver snakeLength finalScore st) = finalScore /\
   localStorage (triggerGameOver snakeLength finalScore st)
   = setItem_highScore finalScore (localStorage st)) /\
  (finalScore <= highScore st ->
   highScore (triggerGameOver snakeLength finalScore st) = highScore st /\
   localStorage (triggerGameOver snakeLength finalScore st) = localStorage st) /\
  (forall rng,
      collided st = true ->
      tick st rng
      = Some (triggerGameOver (Z.of_nat (List.length (snake st))) (scoreRef st)
                (setDirection (nextDirection st) st), rng)) /\
  (Reachable st -> scoreRef st = score st).
Proof.
  assert (Htick : forall rng,
             collided st = true ->
             tick st rng
             = Some (triggerGameOver (Z.of_nat (List.length (snake st)))
                       (scoreRef st) (setDirection (nextDirection st) st), rng))
    by (intros rng Hc; now rewrite tick_collision).
  assert (Href : Reachable st -> scoreRef st = score st)
    by (intros HR; apply (reachable_invariant _ HR)).
  unfold triggerGameOver. cbn [highScore setGameState].
  destruct (Z.gtb_spec finalScore (highScore st)) as [Hgt | Hle];
    repeat split; try reflexivity; try lia; assumption.
Qed.

Lemma triggerGameOver_highScore_witness :
  highScore scenarioHighScore < 40 /\
  highScore (triggerGameOver 1 40 scenarioHighScore) = 40 /\
  localStorage (triggerGameOver 1 40 scenarioHighScore)
  = setItem_highScore 40 (localStorage scenarioHighScore).
Proof.
  assert (H : highScore scenarioHighScore < 40) by reflexivity.
  split; [exact H |].
  exact (proj1 (proj2 (triggerGameOver_highScore 1 40 scenarioHighScore)) H).
Defined.

End GameFacts.

(** * Properties of the route handler *)

Module AiRouteFacts.
Import AiRoute.

Lemma promptOf_default (b : Body) :
  type b <> Some "tip" ->
  type b <> Some "feedback" ->
  type b <> Some "theme" ->
  promptOf b = None.
Proof.
  unfold promptOf. intros Htip Hfeedback Htheme.
  destruct (type b) as [t |]; [| reflexivity].
  destruct (String.eqb_spec t "tip") as [-> | _]; [now elim Htip |].
  destruct (String.eqb_spec t "feedback") as [-> | _]; [now elim Hfeedback |].
  destruct (String.eqb_spec t "theme") as [-> | _]; [now elim Htheme |].
  reflexivity.
Qed.

(** A "theme" request goes through to the completion. *)
Example POST_theme :
  let r := POST (answering themeBody) in
  (status r, success r, content r, r_type r)
  = (200, Some true, Some "Midnight Ember", Some "theme").
Proof. reflexivity. Qed.

(** An unknown type stops at the [default] branch. *)
Example POST_hint : POST (answering hintBody) = invalidType.
Proof. reflexivity. Qed.

(** C9, with the third case of the switch: a request whose type is none of
    "tip", "feedback" and "theme" gets no content; it gets the client error
    400 once the SDK client has been created, and the server error 500 when
    that fails. *)
Theorem POST_invalid_type (env : Env) (b : Body) :
  json env = Some b ->
  type b <> Some "tip" ->
  type b <> Some "feedback" ->
  type b <> Some "theme" ->
  content (POST env) = None /\
  status (POST env) = (if create env then 400 else 500) /\
  (create env = true -> POST env = invalidType).
Proof.
  intros Hjson Htip Hfeedback Htheme. unfold POST. rewrite Hjson.
  rewrite (promptOf_default b Htip Hfeedback Htheme).
  destruct (create env); repeat split. discriminate.
Qed.

Lemma POST_invalid_type_witness :
  json (answering hintBody) = Some hintBody /\
  type hintBody <> Some "tip" /\
  type hintBody <> Some "feedback" /\
  type hintBody <> Some "theme" /\
  content (POST (answering hintBody)) = None /\
  status (POST (answering hintBody)) = 400.
Proof.
  assert (Htip : type hintBody <> Some "tip") by discriminate.
  assert (Hfeedback : type hintBody <> Some "feedback") by discriminate.
  assert (Htheme : type hintBody <> Some "theme") by discriminate.
  do 4 (split; [first [reflexivity | assumption] |]).
  destruct (POST_invalid_type (answering hintBody) hintBody eq_refl
              Htip Hfeedback Htheme) as (Hc & Hs & _).
  split; [exact Hc | exact Hs].
Defined.

(** The claim with two types only: a "theme" request is answered with
    status 200 and a content. *)
Lemma POST_theme_counterexample :
  ~ (forall env b,
        json env = Some b ->
        type b <> Some "tip" ->
        type b <> Some "feedback" ->
        content (POST env) = None /\ 400 <= status (POST env) < 500).
Proof.
  intros H.
  destruct (H (answering themeBody) themeBody eq_refl) as [Hc _];
    try discriminate.
Qed.

End AiRouteFacts.

(** * Invariants of the game *)

Module Invariants.
Import Game GameFacts.

(** ** Dropping the last segment *)

Lemma pop_cons (head s0 : Position) (body : list Position) :
  pop (head :: s0 :: body) = head :: pop (s0 :: body).
Proof. reflexivity. Qed.

Lemma pop_In (p : Position) (l : list Position) : In p (pop l) -> In p l.
Proof.
  induction l as [| a l IH]; [intros [] |].
  destruct l as [| b l]; [intros [] |].
  rewrite pop_cons. intros [E | H]; [now left | right; now apply IH].
Qed.

Lemma pop_Forall (P : Position -> Prop) (l : list Position) :
  Forall P l -> Forall P (pop l).
Proof.
  intros H. apply Forall_forall. intros p Hin.
  rewrite Forall_forall in H. apply H. now apply pop_In.
Qed.

Lemma pop_NoDup (l : list Position) : NoDup l -> NoDup (pop l).
Proof.
  induction l as [| a l IH]; intros H; [constructor |].
  destruct l as [| b l]; [constructor |].
  - rewrite pop_cons. inversion H as [| ? ? Hnot Hrest]; subst.
    constructor; [| now apply IH].
    intros Hin. apply Hnot. now apply pop_In.
Qed.

Lemma pop_connected (l : list Position) : connected l -> connected (pop l).
Proof.
  induction l as [| a l IH]; intros H; [exact I |].
  destruct l as [| b [| c l]]; [exact I | exact I |].
  destruct H as [Hab Hrest]. specialize (IH Hrest).
  rewrite pop_cons. rewrite pop_cons in IH |- *. split; assumption.
Qed.

(** ** One step of the head *)

Lemma moveHead_adjacent (d : Direction) (p : Position) :
  adjacent (moveHead d p) p.
Proof. unfold adjacent. destruct d; simpl; lia. Qed.

Lemma moveHead_back (d : Direction) (p : Position) :
  moveHead (opposites d) (moveHead d p) = p.
Proof. destruct p as [px py], d; simpl; f_equal; lia. Qed.

Lemma moveHead_moves (d : Direction) (p : Position) : moveHead d p <> p.
Proof. destruct p as [px py], d; simpl; intros [= H]; lia. Qed.

Lemma reverseOf_opposites (a d : Direction) :
  reverseOf a d = true <-> d = opposites a.
Proof. destruct a, d; simpl; split; congruence. Qed.

Lemma not_opposite_no_reverse (a d : Direction) :
  negb (direction_eqb a (opposites d)) = true -> reverseOf a d = false.
Proof. destruct a, d; simpl; congruence. Qed.

Lemma reverseOf_self (d : Direction) : reverseOf d d = false.
Proof. now destruct d. Qed.

(** ** The tick keeps the invariants *)

Lemma triggerGameOver_fields snakeLength finalScore st :
  gameState (triggerGameOver snakeLength finalScore st) = gameover /\
  snake (triggerGameOver snakeLength finalScore st) = snake st /\
  food (triggerGameOver snakeLength finalScore st) = food st /\
  score (triggerGameOver snakeLength finalScore st) = score st /\
  direction (triggerGameOver snakeLength finalScore st) = direction st /\
  nextDirection (triggerGameOver snakeLength finalScore st) = nextDirection st /\
  highScore (triggerGameOver snakeLength finalScore st)
  = Z.max (highScore st) finalScore /\
  storedHighScore (localStorage (triggerGameOver snakeLength finalScore st))
  = (if finalScore >? highScore st
     then finalScore else storedHighScore (localStorage st)) /\
  requests (triggerGameOver snakeLength finalScore st)
  = requests st
    ++ [{| req_type := "feedback";
           req_data := Some {| fd_score := finalScore;
                               fd_highScore := highScore st;
                               fd_length := snakeLength |} |}].
Proof.
  unfold triggerGameOver. cbn [highScore setGameState].
  destruct (Z.gtb_spec finalScore (highScore st));
    repeat split; cbn; lia.
Qed.

Lemma newHead_cons st s0 body :
  snake st = s0 :: body -> newHead st = Some (moveHead (nextDirection st) s0).
Proof. unfold newHead. now intros ->. Qed.

Lemma tick_gameInv st rng st' rng' :
  gameInv st ->
  synced st ->
  gameState st = playing ->
  tick st rng = Some (st', rng') ->
  gameInv st'.
Proof.
  intros Inv Syn Hplay H.
  destruct (snake st) as [| s0 body] eqn:Hs;
    [now destruct (inv_nonempty _ Inv) |].
  pose proof (newHead_cons _ _ _ Hs) as Hh.
  set (head := moveHead (nextDirection st) s0) in *.
  pose proof (inv_inGrid _ Inv) as Hgrid.
  pose proof (inv_NoDup _ Inv) as Hnd.
  pose proof (inv_connected _ Inv) as Hconn.
  pose proof (inv_food _ Inv) as Hfood.
  pose proof (inv_score _ Inv) as Hscore.
  pose proof (inv_highScore _ Inv) as Hhigh.
  pose proof (inv_gameover _ Inv) as Hover.
  pose proof (inv_requests _ Inv) as Hreq.
  rewrite Hs in Hgrid, Hnd, Hconn, Hfood, Hscore.
  destruct (collided st) eqn:Hc.
  - (* game over *)
    rewrite (tick_collision _ _ Hc) in H. injection H as <- <-.
    destruct (triggerGameOver_fields
                (Z.of_nat (List.length (snake st))) (scoreRef st)
                (setDirection (nextDirection st) st))
      as (Eg & Esn & Ef & Esc & Ed & En & Eh & Est & Er).
    cbn [snake food score direction nextDirection highScore localStorage
         requests setDirection] in Esn, Ef, Esc, Ed, En, Eh, Est, Er.
    constructor.
    + rewrite Esn, Hs. discriminate.
    + now rewrite Esn, Hs.
    + now rewrite Esn, Hs.
    + now rewrite Esn, Hs.
    + now rewrite Esn, Ef, Hs.
    + now rewrite Esn, Esc, Hs.
    + rewrite Ed, En. apply reverseOf_self.
    + intros [E | E]; rewrite Eg in E; discriminate.
    + rewrite Eh, Est, (sync_scoreRef _ Syn).
      destruct (Z.gtb_spec (score st) (highScore st)); lia.
    + intros _. rewrite Esc, Eh, (sync_scoreRef _ Syn). lia.
    + rewrite Er. apply Forall_app. split; [assumption |].
      constructor; [| constructor]. right. split; [reflexivity | discriminate].
  - assert (Hin : inGrid head /\ ~ In head (s0 :: body)).
    { unfold collided in Hc. rewrite Hh, Hs in Hc.
      apply orb_false_iff in Hc. destruct Hc as [Hw Ho].
      split; [now apply hitsWall_inGrid | now apply onSnake_not_In]. }
    destruct Hin as [Hhg Hhn].
    destruct (ateFood st) eqn:Ha.
    + (* the snake eats *)
      rewrite (tick_eat _ _ _ Hh Hc Ha), Hs in H.
      destruct (generateFood rng (head :: s0 :: body)) as [[newFood r] |] eqn:G;
        [| discriminate].
      injection H as <- <-.
      destruct (generateFood_inv _ _ _ _ G) as (_ & _ & _ & _ & _ & _ & Hoff).
      apply onSnake_not_In in Hoff.
      constructor;
        cbn [snake food score direction nextDirection highScore localStorage
             requests gameState setSnake setSpeed setFood setScore
             setDirection].
      * discriminate.
      * now constructor.
      * now constructor.
      * split; [apply moveHead_adjacent | assumption].
      * exact Hoff.
      * cbn [List.length] in Hscore |- *. lia.
      * apply reverseOf_self.
      * intros _. unfold neckBehind.
        cbn [snake direction setSnake setSpeed setFood setScore setDirection].
        symmetry. apply moveHead_back.
      * assumption.
      * intros E. congruence.
      * assumption.
    + (* the snake moves *)
      rewrite (tick_move _ _ _ Hh Hc Ha), Hs in H.
      assert (E : st' = setSnake (pop (head :: s0 :: body))
                          (setDirection (nextDirection st) st))
        by congruence.
      subst st'. clear H.
      assert (Hne : food st <> head).
      { unfold ateFood in Ha. rewrite Hh in Ha. intros E.
        symmetry in E. apply samePosition_eq in E. congruence. }
      rewrite pop_cons.
      constructor; cbn [snake food score direction nextDirection highScore
                        localStorage requests gameState setSnake setDirection].
      * discriminate.
      * constructor; [assumption | now apply pop_Forall].
      * constructor; [| now apply pop_NoDup].
        intros Hin. apply Hhn. now apply pop_In.
      * destruct body as [| b body]; [exact I |].
        rewrite pop_cons. split; [apply moveHead_adjacent |].
        rewrite <- pop_cons. now apply pop_connected.
      * intros [E | Hin]; [now apply Hne |].
        apply Hfood. now apply pop_In.
      * cbn [List.length]. rewrite pop_length. cbn [List.length] in Hscore.
        assumption.
      * apply reverseOf_self.
      * intros _. unfold neckBehind.
        cbn [snake direction setSnake setDirection].
        destruct body as [| b body]; [exact I |].
        rewrite pop_cons. symmetry. apply moveHead_back.
      * assumption.
      * intros E. congruence.
      * assumption.
Qed.

(** ** The other handlers keep the invariants *)

Lemma startGame_gameInv st rng st' rng' :
  gameInv st ->
  startGame st rng = Some (st', rng') ->
  gameInv st'.
Proof.
  intros Inv H. rewrite startGame_eq in H.
  destruct (generateFood rng [startCell]) as [[newFood r] |] eqn:G;
    [| discriminate].
  injection H as <- <-.
  destruct (generateFood_inv _ _ _ _ G) as (_ & _ & _ & _ & _ & _ & Hoff).
  apply onSnake_not_In in Hoff.
  constructor; cbn.
  - discriminate.
  - constructor; [| constructor]. unfold inGrid, GRID_SIZE. simpl. lia.
  - constructor; [intros [] | constructor].
  - exact I.
  - exact Hoff.
  - reflexivity.
  - reflexivity.
  - intros _. exact I.
  - apply (inv_highScore _ Inv).
  - discriminate.
  - apply (inv_requests _ Inv).
Qed.

Lemma keepsGame_gameInv st st' :
  gameInv st -> keepsGame st st' -> gameInv st'.
Proof.
  intros Inv K. destruct K. constructor.
  - rewrite keeps_snake0. apply (inv_nonempty _ Inv).
  - rewrite keeps_snake0. apply (inv_inGrid _ Inv).
  - rewrite keeps_snake0. apply (inv_NoDup _ Inv).
  - rewrite keeps_snake0. apply (inv_connected _ Inv).
  - rewrite keeps_snake0, keeps_food0. apply (inv_food _ Inv).
  - rewrite keeps_snake0, keeps_score0. apply (inv_score _ Inv).
  - rewrite keeps_direction0.
    destruct keeps_turn0 as [-> | E]; [apply (inv_turn _ Inv) | exact E].
  - intros Hin. unfold neckBehind. rewrite keeps_snake0, keeps_direction0.
    apply (inv_neck _ Inv). now apply keeps_session0.
  - rewrite keeps_highScore0. unfold storedHighScore. rewrite keeps_stored0.
    apply (inv_highScore _ Inv).
  - intros E. rewrite keeps_score0, keeps_highScore0.
    apply (inv_gameover _ Inv). now apply keeps_gameover0.
  - destruct keeps_requests0 as [-> | ->]; [apply (inv_requests _ Inv) |].
    apply Forall_app. split; [apply (inv_requests _ Inv) |].
    constructor; [| constructor]. left. split; reflexivity.
Qed.

Lemma runEffects_gameInv st : gameInv st -> gameInv (runEffects st).
Proof.
  intros Inv. destruct Inv. constructor; try assumption.
Qed.

Lemma runEffects_synced st : synced (runEffects st).
Proof. constructor; reflexivity. Qed.

Lemma mount_gameInv stored : gameInv (mount stored).
Proof.
  constructor; cbn.
  - discriminate.
  - constructor; [| constructor]. unfold inGrid, GRID_SIZE. simpl. lia.
  - constructor; [intros [] | constructor].
  - exact I.
  - intros [[=] | []].
  - reflexivity.
  - reflexivity.
  - intros [[=] | [=]].
  - reflexivity.
  - discriminate.
  - constructor.
Qed.

(** ** What an event can do *)

Ltac fields :=
  cbn [gameState snake food direction nextDirection score highScore speed
       theme aiTip aiFeedback isLoadingAi touchStartRef scoreRef localStorage
       requests setGameState setSnake setFood setDirection setNextDirection
       setScore setHighScore setSpeed setTheme setAiTip setAiFeedback
       setIsLoadingAi setTouchStartRef setScoreRef setLocalStorage fetch
       fetchAiTip aiTipSettled aiFeedbackSettled handleTouchStart].

(** The handler ended in an explicit state that leaves the game alone. *)
Ltac keeps :=
  constructor; fields;
  try reflexivity;
  try discriminate;
  try (intros ?; assumption);
  try (left; reflexivity);
  try (right; reflexivity);
  try (right; apply not_opposite_no_reverse; assumption);
  try (unfold inSession; fields; intuition congruence).

Ltac frame_case H :=
  repeat match goal with
         | C : (_ && _) = true |- _ => apply andb_true_iff in C; destruct C
         end;
  injection H as <- <-; right; right; split; [keeps | reflexivity].

Ltac split_handler H :=
  repeat match type of H with
         | context [if ?b then _ else _] => destruct b eqn:?
         | context [match ?a with Some _ => _ | None => _ end] => destruct a
         end.

(** An event runs the tick of a playing game, or starts a game, or leaves
    the game alone. *)
Lemma dispatch_cases ev st rng st' rng' :
  dispatch ev st rng = Some (st', rng') ->
  (gameState st = playing /\ tick st rng = Some (st', rng')) \/
  startGame st rng = Some (st', rng') \/
  (keepsGame st st' /\ rng' = rng).
Proof.
  intros H. destruct ev; unfold dispatch in H.
  - unfold gameLoop in H. destruct (gameState st) eqn:E;
      [frame_case H | left; now split | frame_case H | frame_case H].
  - assert (K : handleKeyDown key st rng = Some (st', rng'))
      by (destruct (gameState st); exact H).
    clear H. unfold handleKeyDown in K.
    destruct (gameState st) eqn:E.
    + destruct (keyIs key ["Enter"; " "]); [right; left; exact K |].
      frame_case K.
    + split_handler K; frame_case K.
    + split_handler K; frame_case K.
    + destruct (keyIs key ["Enter"; " "]); [right; left; exact K |].
      frame_case K.
  - destruct (gameState st) eqn:E; frame_case H.
  - unfold handleTouchEnd in H.
    destruct (gameState st) eqn:E; split_handler H; frame_case H.
  - unfold handleDirectionButton in H.
    destruct (gameState st) eqn:E; split_handler H; frame_case H.
  - destruct (gameState st) eqn:E; frame_case H.
  - destruct (gameState st) eqn:E; frame_case H.
  - destruct (gameState st) eqn:E; frame_case H.
  - destruct (gameState st) eqn:E;
      [right; left; exact H | frame_case H | frame_case H
       | right; left; exact H].
  - destruct (gameState st) eqn:E; frame_case H.
  - destruct (gameState st) eqn:E; split_handler H; frame_case H.
  - destruct (gameState st) eqn:E; split_handler H; frame_case H.
  - destruct (gameState st) eqn:E; destruct a; frame_case H.
  - destruct (gameState st) eqn:E; destruct a; frame_case H.
Qed.

(** Every state of the page satisfies the invariants of the game and has
    the effects of its last render in place. *)
Lemma reachable_gameInv st : Reachable st -> gameInv st /\ synced st.
Proof.
  induction 1 as [| st _ _ | ev st rng st' rng' _ [Inv Syn] Hstep].
  - split; [apply mount_gameInv | apply runEffects_synced].
  - split; [apply mount_gameInv | apply runEffects_synced].
  - unfold step in Hstep.
    destruct (dispatch ev st rng) as [[st1 rng1] |] eqn:D; [| discriminate].
    injection Hstep as <- <-.
    split; [| apply runEffects_synced]. apply runEffects_gameInv.
    destruct (dispatch_cases _ _ _ _ _ D) as [[Hplay T] | [S | [K _]]].
    + exact (tick_gameInv _ _ _ _ Inv Syn Hplay T).
    + exact (startGame_gameInv _ _ _ _ Inv S).
    + exact (keepsGame_gameInv _ _ Inv K).
Qed.

(** ** Two states of a first game *)

Lemma firstGame_reachable : Reachable firstGame.
Proof.
  apply (Reachable_step PlayButton (mount noStorage) firstDraws
           firstGame firstDrawsLeft Reachable_mount).
  vm_compute. reflexivity.
Defined.

Lemma firstMeal_reachable : Reachable firstMeal.
Proof.
  apply (Reachable_step Tick firstGame firstDrawsLeft firstMeal []
           firstGame_reachable).
  vm_compute. reflexivity.
Defined.

(** ** The snake *)

(** X1: in every state of the page the snake has a segment and all its
    segments are cells of the grid. *)
Theorem snake_stays_on_grid st :
  Reachable st -> snake st <> [] /\ Forall inGrid (snake st).
Proof.
  intros HR. destruct (reachable_gameInv _ HR) as [Inv _].
  split; [apply (inv_nonempty _ Inv) | apply (inv_inGrid _ Inv)].
Qed.

Lemma snake_stays_on_grid_witness :
  Reachable firstMeal /\ snake firstMeal <> [] /\ Forall inGrid (snake firstMeal).
Proof.
  split; [exact firstMeal_reachable |].
  exact (snake_stays_on_grid firstMeal firstMeal_reachable).
Defined.

(** X2: in every state of the page no two segments of the snake are on the
    same cell. *)
Theorem snake_never_overlaps st : Reachable st -> NoDup (snake st).
Proof.
  intros HR. destruct (reachable_gameInv _ HR) as [Inv _].
  apply (inv_NoDup _ Inv).
Qed.

Lemma snake_never_overlaps_witness :
  Reachable firstMeal /\ NoDup (snake firstMeal).
Proof.
  split; [exact firstMeal_reachable |].
  exact (snake_never_overlaps firstMeal firstMeal_reachable).
Defined.

(** X3: in every state of the page each segment of the snake shares a side
    with the next one. *)
Theorem snake_is_connected st : Reachable st -> connected (snake st).
Proof.
  intros HR. destruct (reachable_gameInv _ HR) as [Inv _].
  apply (inv_connected _ Inv).
Qed.

Lemma snake_is_connected_witness :
  Reachable firstMeal /\ connected (snake firstMeal).
Proof.
  split; [exact firstMeal_reachable |].
  exact (snake_is_connected firstMeal firstMeal_reachable).
Defined.

(** X4: in every state of the page the food is on no segment of the snake,
    whatever the draws were. *)
Theorem food_never_on_snake st : Reachable st -> ~ In (food st) (snake st).
Proof.
  intros HR. destruct (reachable_gameInv _ HR) as [Inv _].
  apply (inv_food _ Inv).
Qed.

Lemma food_never_on_snake_witness :
  Reachable firstMeal /\ ~ In (food firstMeal) (snake firstMeal).
Proof.
  split; [exact firstMeal_reachable |].
  exact (food_never_on_snake firstMeal firstMeal_reachable).
Defined.

(** X5: in every state of the page the score is ten times the number of
    segments the snake has grown by. *)
Theorem score_counts_growth st :
  Reachable st -> score st = 10 * (Z.of_nat (List.length (snake st)) - 1).
Proof.
  intros HR. destruct (reachable_gameInv _ HR) as [Inv _].
  apply (inv_score _ Inv).
Qed.

Lemma score_counts_growth_witness :
  Reachable firstMeal /\
  score firstMeal = 10 * (Z.of_nat (List.length (snake firstMeal)) - 1).
Proof.
  split; [exact firstMeal_reachable |].
  exact (score_counts_growth firstMeal firstMeal_reachable).
Defined.

(** ** Turns *)

Lemma moveHead_direction (d e : Direction) (p : Position) :
  moveHead d p = moveHead e p -> d = e.
Proof.
  destruct p as [px py], d, e; simpl; intros E;
    try reflexivity; exfalso; injection E; lia.
Qed.

(** X6: in every state of the page the buffered direction is not the
    reverse of the applied one, so the direction a tick applies is never
    the reverse of the direction the tick before applied. *)
Theorem no_reversal st :
  Reachable st ->
  reverseOf (direction st) (nextDirection st) = false /\
  forall rng st' rng',
    tick st rng = Some (st', rng') ->
    direction st' = nextDirection st /\
    direction st' <> opposites (direction st).
Proof.
  intros HR. destruct (reachable_gameInv _ HR) as [Inv _].
  pose proof (inv_turn _ Inv) as Hturn.
  split; [exact Hturn |].
  intros rng st' rng' H.
  assert (Hd : direction st' = nextDirection st).
  { destruct (collided st) eqn:Hc.
    - rewrite (tick_collision _ _ Hc) in H. injection H as <- <-.
      apply (triggerGameOver_fields _ _ (setDirection (nextDirection st) st)).
    - destruct (newHead st) as [head |] eqn:Hh.
      + destruct (ateFood st) eqn:Ha.
        * rewrite (tick_eat _ _ _ Hh Hc Ha) in H.
          destruct (generateFood rng (head :: snake st)) as [[newFood r] |];
            [| discriminate].
          now injection H as <- <-.
        * rewrite (tick_move _ _ _ Hh Hc Ha) in H. now injection H as <- <-.
      + destruct (inv_nonempty _ Inv). unfold newHead in Hh.
        destruct (snake st); [reflexivity | discriminate]. }
  split; [exact Hd |].
  rewrite Hd. intros E. apply reverseOf_opposites in E. congruence.
Qed.

Lemma no_reversal_witness :
  Reachable firstMeal /\
  reverseOf (direction firstMeal) (nextDirection firstMeal) = false /\
  forall rng st' rng',
    tick firstMeal rng = Some (st', rng') ->
    direction st' = nextDirection firstMeal /\
    direction st' <> opposites (direction firstMeal).
Proof.
  split; [exact firstMeal_reachable |].
  exact (no_reversal firstMeal firstMeal_reachable).
Defined.

(** X7: during a session the head never steps onto the segment right
    behind it. *)
Theorem never_into_neck st head neck rest :
  Reachable st ->
  inSession st ->
  snake st = head :: neck :: rest ->
  moveHead (nextDirection st) head <> neck.
Proof.
  intros HR Hin Hs. destruct (reachable_gameInv _ HR) as [Inv _].
  pose proof (inv_neck _ Inv Hin) as Hneck.
  pose proof (inv_turn _ Inv) as Hturn.
  unfold neckBehind in Hneck. rewrite Hs in Hneck. subst neck.
  intros E. apply moveHead_direction in E.
  apply reverseOf_opposites in E. congruence.
Qed.

Lemma never_into_neck_witness :
  Reachable firstMeal /\
  inSession firstMeal /\
  snake firstMeal = [{| x := 11; y := 10 |}; {| x := 10; y := 10 |}] /\
  moveHead (nextDirection firstMeal) {| x := 11; y := 10 |}
  <> {| x := 10; y := 10 |}.
Proof.
  assert (Hin : inSession firstMeal) by (left; reflexivity).
  assert (Hs : snake firstMeal
               = [{| x := 11; y := 10 |}; {| x := 10; y := 10 |}])
    by reflexivity.
  split; [exact firstMeal_reachable |]. split; [exact Hin |].
  split; [exact Hs |].
  exact (never_into_neck firstMeal _ _ _ firstMeal_reachable Hin Hs).
Defined.

(** ** Runs *)

Lemma run_reachable evs :
  forall st rng st' rng',
    Reachable st -> run evs st rng = Some (st', rng') -> Reachable st'.
Proof.
  induction evs as [| ev evs IH]; intros st rng st' rng' HR H; simpl in H.
  - now injection H as <- <-.
  - destruct (step ev st rng) as [[st1 rng1] |] eqn:S; [| discriminate].
    apply (IH st1 rng1 st' rng'); [| exact H].
    exact (Reachable_step ev st rng st1 rng1 HR S).
Qed.

Lemma firstCrash_reachable : Reachable firstCrash.
Proof.
  apply (run_reachable (PlayButton :: repeat Tick 10)
           (mount noStorage) firstDraws firstCrash [] Reachable_mount).
  vm_compute. reflexivity.
Defined.

(** ** Game over *)



Lemma tick_highScore st rng st' rng' :
  tick st rng = Some (st', rng') -> highScore st <= highScore st'.
Proof.
  intros H. destruct (collided st) eqn:Hc.
  - rewrite (tick_collision _ _ Hc) in H. injection H as <- <-.
    destruct (triggerGameOver_fields
                (Z.of_nat (List.length (snake st))) (scoreRef st)
                (setDirection (nextDirection st) st))
      as (_ & _ & _ & _ & _ & _ & Eh & _).
    rewrite Eh. cbn [highScore setDirection]. lia.
  - destruct (newHead st) as [head |] eqn:Hh.
    + destruct (ateFood st) eqn:Ha.
      * rewrite (tick_eat _ _ _ Hh Hc Ha) in H.
        destruct (generateFood rng (head :: snake st)) as [[newFood r] |];
          [| discriminate].
        injection H as <- <-. cbn. lia.
      * rewrite (tick_move _ _ _ Hh Hc Ha) in H. injection H as <- <-.
        cbn [highScore setSnake setDirection]. lia.
    + assert (Hs : snake st = [])
        by (unfold newHead in Hh; destruct (snake st);
            [reflexivity | discriminate]).
      rewrite (tick_empty _ _ Hs) in H. injection H as <- <-. cbn. lia.
Qed.

(** X10: no event ever lowers the high score, and on every game-over screen
    the page reaches the high score is at least the score shown. *)
Theorem highScore_never_drops :
  (forall ev st rng st' rng',
      step ev st rng = Some (st', rng') -> highScore st <= highScore st') /\
  (forall st,
      Reachable st -> gameState st = gameover -> score st <= highScore st).
Proof.
  split.
  - intros ev st rng st' rng' H. unfold step in H.
    destruct (dispatch ev st rng) as [[st1 rng1] |] eqn:D; [| discriminate].
    injection H as <- <-.
    change (highScore (runEffects st1)) with (highScore st1).
    destruct (dispatch_cases _ _ _ _ _ D) as [[_ T] | [S | [K _]]].
    + exact (tick_highScore _ _ _ _ T).
    + rewrite startGame_eq in S.
      destruct (generateFood rng [startCell]) as [[newFood r] |];
        [| discriminate].
      injection S as <- <-. cbn. lia.
    + rewrite (keeps_highScore _ _ K). lia.
  - intros st HR Hover. destruct (reachable_gameInv _ HR) as [Inv _].
    exact (inv_gameover _ Inv Hover).
Qed.

Lemma highScore_never_drops_witness :
  Reachable firstCrash /\
  gameState firstCrash = gameover /\
  score firstCrash = 10 /\
  score firstCrash <= highScore firstCrash.
Proof.
  assert (Hover : gameState firstCrash = gameover) by reflexivity.
  split; [exact firstCrash_reachable |]. split; [exact Hover |].
  split; [reflexivity |].
  exact (proj2 highScore_never_drops firstCrash firstCrash_reachable Hover).
Defined.

(** ** Preferences *)

Lemma runEffects_fixed st : synced st -> runEffects st = st.
Proof.
  intros [H1 H2 H3]. destruct st as [g sn f d nd sc hs sp th tip fb ld ts sr ls rq].
  destruct ls as [lt lsp lh]. cbn in H1, H2, H3. subst. reflexivity.
Qed.

(** X9: loading the page again on the storage it has written brings back
    the speed, the theme and the high score, and a fresh game in the menu. *)
Theorem reload_restores st :
  Reachable st ->
  speed (mount (localStorage st)) = speed st /\
  theme (mount (localStorage st)) = theme st /\
  highScore (mount (localStorage st)) = highScore st /\
  gameState (mount (localStorage st)) = menu /\
  snake (mount (localStorage st)) = [startCell] /\
  score (mount (localStorage st)) = 0.
Proof.
  intros HR. destruct (reachable_gameInv _ HR) as [Inv [_ Hsp Hth]].
  pose proof (inv_highScore _ Inv) as Hhs. cbn.
  rewrite Hsp, Hth, Hhs. repeat split.
Qed.

Lemma reload_restores_witness :
  Reachable firstCrash /\
  speed (mount (localStorage firstCrash)) = 145 /\
  theme (mount (localStorage firstCrash)) = neon /\
  highScore (mount (localStorage firstCrash)) = 10 /\
  gameState (mount (localStorage firstCrash)) = menu /\
  snake (mount (localStorage firstCrash)) = [startCell] /\
  score (mount (localStorage firstCrash)) = 0.
Proof.
  split; [exact firstCrash_reachable |].
  exact (reload_restores firstCrash firstCrash_reachable).
Defined.

(** X20: a start command keeps the speed the page has: the game begins at
    the speed the game before ended with, not at the initial speed. *)
Theorem start_keeps_speed st rng st' rng' :
  Reachable st ->
  startGame st rng = Some (st', rng') ->
  speed st' = speed st.
Proof.
  intros HR H. destruct (reachable_gameInv _ HR) as [_ [_ Hsp _]].
  rewrite (startGame_speed _ _ _ _ H). unfold savedSpeed. now rewrite Hsp.
Qed.

Lemma start_keeps_speed_witness :
  Reachable firstCrash /\
  startGame firstCrash firstDraws = Some (secondGame, firstDrawsLeft) /\
  speed secondGame = 145 /\
  speed secondGame = speed firstCrash.
Proof.
  assert (H : startGame firstCrash firstDraws = Some (secondGame, firstDrawsLeft))
    by (vm_compute; reflexivity).
  split; [exact firstCrash_reachable |]. split; [exact H |].
  split; [reflexivity |].
  exact (start_keeps_speed firstCrash firstDraws secondGame firstDrawsLeft
           firstCrash_reachable H).
Defined.

(** X21: whatever turn is requested after the start, the first tick of a
    game does not collide. *)
Theorem first_tick_safe st rng st' rng' d :
  startGame st rng = Some (st', rng') ->
  collided (setNextDirection d st') = false.
Proof.
  intros H. rewrite startGame_eq in H.
  destruct (generateFood rng [startCell]) as [[newFood r] |]; [| discriminate].
  injection H as <- <-. destruct d; reflexivity.
Qed.

Lemma first_tick_safe_witness :
  startGame (mount noStorage) firstDraws = Some (startedGame, firstDrawsLeft) /\
  collided (setNextDirection UP startedGame) = false.
Proof.
  assert (H : startGame (mount noStorage) firstDraws
              = Some (startedGame, firstDrawsLeft))
    by (vm_compute; reflexivity).
  split; [exact H |].
  exact (first_tick_safe (mount noStorage) firstDraws startedGame
           firstDrawsLeft UP H).
Defined.

(** ** Pause *)

(** X11: pausing a playing game and resuming it, by the buttons or by the
    key, gives back the very state the game was paused in. *)
Theorem pause_resume st rng :
  Reachable st ->
  gameState st = playing ->
  step PauseButton st rng = Some (setGameState paused st, rng) /\
  step ResumeButton (setGameState paused st) rng = Some (st, rng) /\
  step (KeyDown "p") st rng = Some (setGameState paused st, rng) /\
  step (KeyDown "p") (setGameState paused st) rng = Some (st, rng).
Proof.
  intros HR Hplay. destruct (reachable_gameInv _ HR) as [_ Syn].
  assert (Hp : runEffects (setGameState paused st) = setGameState paused st).
  { apply runEffects_fixed. destruct Syn. constructor; assumption. }
  assert (Hr : runEffects (setGameState playing (setGameState paused st)) = st).
  { rewrite runEffects_fixed.
    - destruct st. cbn in Hplay. subst. reflexivity.
    - destruct Syn. constructor; assumption. }
  unfold step, dispatch, handleKeyDown. rewrite Hplay.
  cbn [gameState setGameState keyIs existsb String.eqb Ascii.eqb Bool.eqb orb].
  rewrite Hp, Hr. repeat split.
Qed.

Lemma pause_resume_witness :
  Reachable firstMeal /\
  gameState firstMeal = playing /\
  step PauseButton firstMeal [] = Some (setGameState paused firstMeal, []) /\
  step ResumeButton (setGameState paused firstMeal) [] = Some (firstMeal, []) /\
  step (KeyDown "p") firstMeal [] = Some (setGameState paused firstMeal, []) /\
  step (KeyDown "p") (setGameState paused firstMeal) [] = Some (firstMeal, []).
Proof.
  assert (Hplay : gameState firstMeal = playing) by reflexivity.
  split; [exact firstMeal_reachable |]. split; [exact Hplay |].
  exact (pause_resume firstMeal [] firstMeal_reachable Hplay).
Defined.



(** ** A grid with no room *)

Lemma gridCells_complete (c : Position) : inGrid c -> In c gridCells.
Proof.
  intros [Hx Hy]. unfold GRID_SIZE in *. unfold gridCells.
  assert (Haxis : forall v, 0 <= v < 20 ->
                            In v (map Z.of_nat (seq 0 (Z.to_nat GRID_SIZE)))).
  { intros v Hv. apply in_map_iff. exists (Z.to_nat v). split.
    - apply Z2Nat.id. lia.
    - apply in_seq. unfold GRID_SIZE. lia. }
  apply in_flat_map. exists (x c). split; [now apply Haxis |].
  apply in_map_iff. exists (y c). split; [now destruct c | now apply Haxis].
Qed.

(** X13: when the snake lies on every cell of the grid, the food placement
    never returns, however many draws it is given. *)
Theorem generateFood_full_grid currentSnake :
  (forall c, inGrid c -> In c currentSnake) ->
  forall rng, Forall unitDraw rng -> generateFood rng currentSnake = None.
Proof.
  intros Hfull. fix IH 1. intros [| rx [| ry rng]] Hall; try reflexivity.
  inversion Hall as [| ? ? Hx Hall1]; subst.
  inversion Hall1 as [| ? ? Hy Hall2]; subst.
  cbn [generateFood]. fold (drawnCell rx ry).
  assert (Hon : onSnake (drawnCell rx ry) currentSnake = true).
  { apply onSnake_In. apply Hfull. now apply drawnCell_inGrid. }
  rewrite Hon. now apply IH.
Qed.

Lemma generateFood_full_grid_witness :
  (forall c, inGrid c -> In c fullSnake) /\
  Forall unitDraw firstDraws /\
  generateFood firstDraws fullSnake = None.
Proof.
  assert (Hall : Forall unitDraw firstDraws).
  { repeat constructor; apply drawFor_unit; unfold GRID_SIZE; lia. }
  split; [exact gridCells_complete |]. split; [exact Hall |].
  exact (generateFood_full_grid fullSnake gridCells_complete firstDraws Hall).
Defined.

(** ** Input at the edges *)

(** X18: a touch end with no touch start on record changes nothing; a
    swipe of at most 30 pixels on both axes only clears the record; and
    after any touch end no touch start is on record. *)
Theorem short_swipe_ignored touch st :
  (touchStartRef st = None -> handleTouchEnd touch st = st) /\
  (forall start,
      touchStartRef st = Some start ->
      Z.abs (fst touch - fst start) <= 30 ->
      Z.abs (snd touch - snd start) <= 30 ->
      handleTouchEnd touch st = setTouchStartRef None st) /\
  touchStartRef (handleTouchEnd touch st) = None.
Proof.
  unfold handleTouchEnd. split; [| split].
  - now intros ->.
  - intros start -> Hx Hy.
    destruct (Z.gtb_spec (fst touch - fst start) 30); [lia |].
    destruct (Z.ltb_spec (fst touch - fst start) (- (30))); [lia |].
    destruct (Z.gtb_spec (snd touch - snd start) 30); [lia |].
    destruct (Z.ltb_spec (snd touch - snd start) (- (30))); [lia |].
    cbn [andb]. now destruct (Z.abs _ >? Z.abs _).
  - destruct (touchStartRef st) eqn:E; [reflexivity | exact E].
Qed.

Lemma short_swipe_ignored_witness :
  touchStartRef firstMeal = None /\ handleTouchEnd (5, 5) firstMeal = firstMeal.
Proof.
  assert (E : touchStartRef firstMeal = None) by reflexivity.
  split; [exact E |].
  exact (proj1 (short_swipe_ignored (5, 5) firstMeal) E).
Defined.

(** X19: a key the handler has no case for changes nothing, in any game
    state, and takes no draw. *)
Theorem unhandled_key_ignored key st rng :
  keyIs key handledKeys = false ->
  handleKeyDown key st rng = Some (st, rng).
Proof.
  unfold keyIs, handledKeys. cbn [existsb]. intros H.
  repeat (apply orb_false_iff in H; destruct H as [? H]).
  unfold handleKeyDown, keyIs. cbn [existsb].
  repeat match goal with
         | E : String.eqb key _ = false |- _ => rewrite E; clear E
         end.
  cbn [orb]. now destruct (gameState st).
Qed.

Lemma unhandled_key_ignored_witness :
  keyIs "x" handledKeys = false /\
  handleKeyDown "x" firstMeal [] = Some (firstMeal, []).
Proof.
  assert (H : keyIs "x" handledKeys = false) by reflexivity.
  split; [exact H |].
  exact (unhandled_key_ignored "x" firstMeal [] H).
Defined.

(** ** The AI texts *)

(** X14: whatever answer settles a tip or a feedback request, also an
    empty or a failed one, the text shown afterwards is not empty and the
    loading flag is down. *)
Theorem ai_text_never_empty (a : option AiAnswer) st :
  aiTip (aiTipSettled a st) <> "" /\
  isLoadingAi (aiTipSettled a st) = false /\
  aiFeedback (aiFeedbackSettled a st) <> "" /\
  isLoadingAi (aiFeedbackSettled a st) = false.
Proof.
  destruct a as [[c f] |]; cbn; repeat split;
    try discriminate; destruct c, f; discriminate.
Qed.

(** ** Growth over a session *)

Ltac session_frame_case H :=
  repeat match goal with
         | C : (_ && _) = true |- _ => apply andb_true_iff in C; destruct C
         end;
  injection H as <- <-; right; split; [keeps | reflexivity].

(** Inside a session an event runs the tick or leaves the game alone; it
    never starts a game. *)
Lemma dispatch_session_cases ev st rng st' rng' :
  inSession st ->
  dispatch ev st rng = Some (st', rng') ->
  (gameState st = playing /\ tick st rng = Some (st', rng')) \/
  (keepsGame st st' /\ rng' = rng).
Proof.
  intros [E | E] H; destruct ev;
    unfold dispatch, gameLoop, handleKeyDown, handleTouchEnd,
      handleDirectionButton in H;
    rewrite ?E in H;
    try (left; split; [exact E | exact H]);
    split_handler H; try destruct a; session_frame_case H.
Qed.

Lemma tick_grows st rng st' rng' :
  tick st rng = Some (st', rng') ->
  (List.length (snake st) <= List.length (snake st'))%nat /\
  score st <= score st'.
Proof.
  intros H. destruct (collided st) eqn:Hc.
  - rewrite (tick_collision _ _ Hc) in H. injection H as <- <-.
    destruct (triggerGameOver_fields
                (Z.of_nat (List.length (snake st))) (scoreRef st)
                (setDirection (nextDirection st) st))
      as (_ & Esn & _ & Esc & _).
    rewrite Esn, Esc. cbn [snake score setDirection]. lia.
  - destruct (newHead st) as [head |] eqn:Hh.
    + destruct (ateFood st) eqn:Ha.
      * rewrite (tick_eat _ _ _ Hh Hc Ha) in H.
        destruct (generateFood rng (head :: snake st)) as [[newFood r] |];
          [| discriminate].
        injection H as <- <-.
        cbn [snake score setSnake setSpeed setFood setScore setDirection
             List.length]. lia.
      * rewrite (tick_move _ _ _ Hh Hc Ha) in H.
        assert (E : st' = setSnake (pop (head :: snake st))
                            (setDirection (nextDirection st) st))
          by congruence.
        subst st'. cbn [snake score setSnake setDirection].
        rewrite pop_length. lia.
    + assert (Hs : snake st = [])
        by (unfold newHead in Hh; destruct (snake st);
            [reflexivity | discriminate]).
      rewrite (tick_empty _ _ Hs) in H. injection H as <- <-.
      cbn [snake score setDirection]. lia.
Qed.

(** X24: over a session the snake never gets shorter and the score never
    goes down: no event inside a session resets the game. *)
Theorem session_never_shrinks a b :
  Session a b ->
  (List.length (snake (fst a)) <= List.length (snake (fst b)))%nat /\
  score (fst a) <= score (fst b).
Proof.
  induction 1 as [a | ev st rng st1 rng1 b Hin Hstep _ IH]; [lia |].
  cbn [fst] in *. unfold step in Hstep.
  destruct (dispatch ev st rng) as [[st2 rng2] |] eqn:D; [| discriminate].
  injection Hstep as <- <-.
  change (snake (runEffects st2)) with (snake st2) in IH.
  change (score (runEffects st2)) with (score st2) in IH.
  destruct (dispatch_session_cases _ _ _ _ _ Hin D) as [[_ T] | [K _]].
  - pose proof (tick_grows _ _ _ _ T). lia.
  - rewrite (keeps_snake _ _ K), (keeps_score _ _ K) in IH. lia.
Qed.

Lemma session_never_shrinks_witness :
  Session (firstGame, firstDrawsLeft) (firstMeal, []) /\
  (List.length (snake firstGame) <= List.length (snake firstMeal))%nat /\
  score firstGame <= score firstMeal.
Proof.
  assert (HS : Session (firstGame, firstDrawsLeft) (firstMeal, [])).
  { apply (Session_step Tick firstGame firstDrawsLeft firstMeal []).
    - left. reflexivity.
    - vm_compute. reflexivity.
    - apply Session_refl. }
  split; [exact HS |].
  exact (session_never_shrinks _ _ HS).
Defined.

End Invariants.

(** * More on the route handler *)

Module AiRouteMore.
Import AiRoute.

Lemma fallback_in_tips (r : Q) :
  Game.unitDraw r ->
  exists t, getFallbackResponse r = Some t /\ In t tips.
Proof.
  intros [Hlo Hhi]. unfold getFallbackResponse.
  set (i := Qfloor (r * inject_Z (Z.of_nat (List.length tips)))).
  assert (Hi : 0 <= i < 5).
  { subst i. change (Z.of_nat (List.length tips)) with 5. split.
    - change 0 with (Qfloor (inject_Z 0)). apply Qfloor_resp_le.
      change (inject_Z 0) with (0 * inject_Z 5)%Q.
      apply Qmult_le_compat_r; [assumption | discriminate].
    - rewrite Zlt_Qlt.
      apply Qle_lt_trans with (r * inject_Z 5)%Q; [apply Qfloor_le |].
      setoid_replace (inject_Z 5) with (1 * inject_Z 5)%Q at 2 by ring.
      apply Qmult_lt_compat_r; [reflexivity | assumption]. }
  destruct (Z.ltb_spec i 0) as [Hneg | _]; [lia |].
  destruct (nth_error tips (Z.to_nat i)) as [t |] eqn:E.
  - exists t. split; [reflexivity |]. now apply nth_error_In in E.
  - apply nth_error_None in E. change (List.length tips) with 5%nat in E. lia.
Qed.

(** X16: for a draw of [Math.random] the fallback is always one of the five
    tips, never [undefined]. *)
Theorem getFallbackResponse_is_tip (r : Q) :
  Game.unitDraw r ->
  exists t, getFallbackResponse r = Some t /\ In t tips.
Proof. exact (fallback_in_tips r). Qed.

Lemma getFallbackResponse_is_tip_witness :
  Game.unitDraw (3 # 5) /\
  exists t, getFallbackResponse (3 # 5) = Some t /\ In t tips.
Proof.
  assert (H : Game.unitDraw (3 # 5))
    by (split; [discriminate | reflexivity]).
  split; [exact H |].
  exact (getFallbackResponse_is_tip (3 # 5) H).
Defined.

Lemma POST_cases (env : Env) :
  (status (POST env) = 200 /\ success (POST env) = Some true /\
   content (POST env) <> None /\ error (POST env) = None /\
   fallback (POST env) = None) \/
  (status (POST env) = 400 /\ success (POST env) = None /\
   content (POST env) = None /\ error (POST env) <> None /\
   fallback (POST env) = None) \/
  (status (POST env) = 500 /\ success (POST env) = Some false /\
   content (POST env) = None /\ error (POST env) <> None /\
   fallback (POST env) = getFallbackResponse (random env)).
Proof.
  unfold POST.
  destruct (json env) as [b |]; [| right; right; repeat split; discriminate].
  destruct (create env); [| right; right; repeat split; discriminate].
  destruct (promptOf b) as [[prompt maxTokens] |];
    [| right; left; repeat split; discriminate].
  destruct (completions_create env prompt maxTokens) as [c |].
  - left. repeat split. discriminate.
  - right; right; repeat split; discriminate.
Qed.

(** X17: the handler answers with one of three statuses; 200 comes with a
    content, [success] true and no error; 400 and 500 come with an error
    message and no content; a fallback only comes with 500. *)
Theorem POST_answers (env : Env) :
  (status (POST env) = 200 /\ success (POST env) = Some true /\
   content (POST env) <> None /\ error (POST env) = None /\
   fallback (POST env) = None) \/
  (status (POST env) = 400 /\ success (POST env) = None /\
   content (POST env) = None /\ error (POST env) <> None /\
   fallback (POST env) = None) \/
  (status (POST env) = 500 /\ success (POST env) = Some false /\
   content (POST env) = None /\ error (POST env) <> None /\
   fallback (POST env) = getFallbackResponse (random env)).
Proof. exact (POST_cases env). Qed.



End AiRouteMore.

(** * The page and the route together *)

Module EndToEnd.

(** X15: no request the page ever sends is turned down by the route as an
    invalid type: its type has a case in the switch, whatever else fails. *)
Theorem client_requests_accepted st r env :
  Game.Reachable st ->
  In r (Game.requests st) ->
  AiRoute.json env = Some (Wire.toBody r) ->
  AiRoute.promptOf (Wire.toBody r) <> None /\
  AiRoute.status (AiRoute.POST env) <> 400.
Proof.
  intros HR Hin Hjson.
  destruct (Invariants.reachable_gameInv _ HR) as [Inv _].
  pose proof (Game.inv_requests _ Inv) as Hreq.
  rewrite Forall_forall in Hreq. specialize (Hreq r Hin).
  assert (Hp : AiRoute.promptOf (Wire.toBody r) <> None).
  { unfold AiRoute.promptOf, Wire.toBody. cbn.
    destruct Hreq as [[-> _] | [-> _]]; discriminate. }
  split; [exact Hp |].
  unfold AiRoute.POST. rewrite Hjson.
  destruct (AiRoute.create env); [| discriminate].
  destruct (AiRoute.promptOf (Wire.toBody r)) as [[prompt maxTokens] |];
    [| contradiction].
  destruct (AiRoute.completions_create env prompt maxTokens); discriminate.
Qed.

Lemma client_requests_accepted_witness :
  Game.Reachable Game.firstCrash /\
  In Wire.crashRequest (Game.requests Game.firstCrash) /\
  AiRoute.json (Wire.sdkDown (Wire.toBody Wire.crashRequest))
  = Some (Wire.toBody Wire.crashRequest) /\
  AiRoute.status (AiRoute.POST (Wire.sdkDown (Wire.toBody Wire.crashRequest)))
  <> 400.
Proof.
  assert (Hin : In Wire.crashRequest (Game.requests Game.firstCrash))
    by (left; reflexivity).
  split; [exact Invariants.firstCrash_reachable |]. split; [exact Hin |].
  split; [reflexivity |].
  exact (proj2 (client_requests_accepted Game.firstCrash Wire.crashRequest
                  (Wire.sdkDown (Wire.toBody Wire.crashRequest))
                  Invariants.firstCrash_reachable Hin eq_refl)).
Defined.

(** X23: what the page shows after a tip request went to the route and
    back: the text of the route when it answered 200 with a text that is
    not empty, one of the five tips of the route when it answered 500, and
    the page's own line when it answered 400. *)
Theorem tip_after_round_trip env st :
  (forall c,
      AiRoute.status (AiRoute.POST env) = 200 ->
      AiRoute.content (AiRoute.POST env) = Some c ->
      c <> "" ->
      Game.aiTip (Game.aiTipSettled (Some (Wire.toAnswer (AiRoute.POST env))) st)
      = c) /\
  (AiRoute.status (AiRoute.POST env) = 500 ->
   Game.unitDraw (AiRoute.random env) ->
   In (Game.aiTip
         (Game.aiTipSettled (Some (Wire.toAnswer (AiRoute.POST env))) st))
      AiRoute.tips) /\
  (AiRoute.status (AiRoute.POST env) = 400 ->
   Game.aiTip (Game.aiTipSettled (Some (Wire.toAnswer (AiRoute.POST env))) st)
   = "Keep practicing and you'll improve!").
Proof.
  split; [| split].
  - intros c _ Hc Hne. unfold Wire.toAnswer. rewrite Hc. cbn.
    destruct c; [contradiction | reflexivity].
  - intros Hs Hdraw.
    destruct (AiRouteMore.POST_cases env)
      as [[E _] | [[E _] | (_ & _ & Hc & _ & Hf)]];
      [rewrite E in Hs; discriminate | rewrite E in Hs; discriminate |].
    destruct (AiRouteMore.fallback_in_tips _ Hdraw) as (t & Ht & Hin).
    unfold Wire.toAnswer. rewrite Hc, Hf, Ht. cbn.
    destruct t as [| a t'] eqn:Et; [| exact Hin].
    exfalso. revert Hin. cbn. intuition discriminate.
  - intros Hs.
    destruct (AiRouteMore.POST_cases env)
      as [[E _] | [(_ & _ & Hc & _ & Hf) | [E _]]];
      [rewrite E in Hs; discriminate | | rewrite E in Hs; discriminate].
    unfold Wire.toAnswer. rewrite Hc, Hf. reflexivity.
Qed.

Lemma tip_after_round_trip_witness :
  AiRoute.status (AiRoute.POST (AiRoute.answering AiRoute.hintBody)) = 400 /\
  Game.aiTip
    (Game.aiTipSettled
       (Some (Wire.toAnswer (AiRoute.POST (AiRoute.answering AiRoute.hintBody))))
       Game.firstMeal)
  = "Keep practicing and you'll improve!".
Proof.
  assert (H : AiRoute.status (AiRoute.POST (AiRoute.answering AiRoute.hintBody))
              = 400) by reflexivity.
  split; [exact H |].
  exact (proj2 (proj2 (tip_after_round_trip
                         (AiRoute.answering AiRoute.hintBody) Game.firstMeal)) H).
Defined.

End EndToEnd.
